(** * Graph build coordination and query orchestration

    A shallow embedding of [graphTools.ts] (the creation registry and the
    supervised background build) and of the [fetchUsageCodeExamples]
    callback of [DefaultRepoHandler.ts], with the properties of the
    specification stated over it.

    Conventions of the embedding.
    - A JavaScript number that holds a count of milliseconds, a count of
      minutes, a line number or a port is a [Z]; [Math.floor (x / d)] for a
      positive [d] is [Z.div]. The arithmetic and the printing of such a
      number are those of JavaScript on the safe integers, below [2 ^ 53]
      in absolute value; where a number is read from a text it is rounded
      to a double first.
    - A JavaScript string is a [string]: the sequence of the bytes of its
      UTF-8 form. The separators the code splits and joins on (line feed,
      slash) and the decimal digits are single bytes, so splitting, slicing
      and joining act on bytes as they act on code units.
    - [Date.now ()] is an explicit argument [now] of every operation that
      reads the clock.
    - A promise is described by how it settles and after how many
      milliseconds. *)

From Stdlib Require Import ZArith String Ascii List Bool Lia.
From stdpp Require Import gmap strings list.

Local Open Scope string_scope.
Local Open Scope Z_scope.

(** ** Small JavaScript helpers *)

Definition LF : string := String (ascii_of_nat 10) EmptyString.
Definition DQ : string := String (ascii_of_nat 34) EmptyString.

Definition digit_char (d : Z) : ascii := ascii_of_nat (48 + Z.to_nat d).

(** Decimal digits of a positive number, most significant first. The
    recursion follows the binary representation, which bounds the number of
    decimal digits. *)
Fixpoint digits_fuel (fuel : nat) (n : Z) (acc : string) : string :=
  match fuel with
  | O => acc
  | S fuel' =>
      let acc' := String (digit_char (n mod 10)) acc in
      if n <? 10 then acc' else digits_fuel fuel' (n / 10) acc'
  end.

(** [Number.prototype.toString ()], and a number in a template literal, on
    a safe integer: its decimal digits. (From [2 ^ 53] on JavaScript prints
    the shortest digits that round to the double, and from [10 ^ 21] on an
    exponent: the function is the code's on the safe integers.) *)
Definition toString (n : Z) : string :=
  match n with
  | Z0 => "0"
  | Zpos _ => digits_fuel (Z.to_nat (Z.log2 n) + 1) n ""
  | Zneg _ => "-" +:+ digits_fuel (Z.to_nat (Z.log2 (- n)) + 1) (- n) ""
  end.

Fixpoint spaces (n : nat) : string :=
  match n with
  | O => ""
  | S n' => String " " (spaces n')
  end.

(** [s.padStart (w)]: pad with spaces on the left up to length [w]. *)
Definition padStart (w : nat) (s : string) : string :=
  spaces (w - String.length s) +:+ s.

(** [xs.join (sep)] *)
Fixpoint join (sep : string) (xs : list string) : string :=
  match xs with
  | [] => ""
  | [x] => x
  | x :: rest => x +:+ sep +:+ join sep rest
  end.

(** [s.split (c)] for a one-character separator: never the empty list. *)
Fixpoint split_on (c : ascii) (s : string) : list string :=
  match s with
  | EmptyString => [""]
  | String a s' =>
      if Ascii.eqb a c then "" :: split_on c s'
      else match split_on c s' with
           | [] => [String a ""]
           | x :: rest => String a x :: rest
           end
  end.

(** ** The creation registry (graphTools.ts) *)

Module Entry.
Record t : Type := mk
  { inProgress : bool;
    timestamp : Z;
    phase : string }.
End Entry.

Module Progress.
Record t : Type := mk
  { inProgress : bool;
    elapsedMinutes : Z;
    estimatedRemaining : string;
    phase : string }.
End Progress.

(** A value of the legacy map [graphCreationLocks : Map<string, boolean | number>]. *)
Inductive legacy_value : Type :=
| LBool (b : bool)
| LNum (n : Z).

(** Truthiness and numeric coercion of such a value, as [if (v)] and
    [Date.now () - v] use them. *)
Definition truthy (v : legacy_value) : bool :=
  match v with
  | LBool b => b
  | LNum n => negb (n =? 0)
  end.

Definition to_number (v : legacy_value) : Z :=
  match v with
  | LBool true => 1
  | LBool false => 0
  | LNum n => n
  end.

(** The two module-level maps: the global creation registry and the legacy
    lock map. *)
Record service_state : Type := mkState
  { registry : gmap string Entry.t;
    graphCreationLocks : gmap string legacy_value }.

Definition timestamp_key (repoKey : string) : string := repoKey +:+ "_timestamp".

(** [Math.floor (elapsedMs / (1000 * 60))] *)
Definition minutes_between (now ts : Z) : Z := (now - ts) / (1000 * 60).

Definition isCreationInProgress (repoKey : string) (now : Z) (st : service_state)
  : service_state * bool :=
  match registry st !! repoKey with
  | Some entry =>
      if Entry.inProgress entry then
        let elapsedMinutes := minutes_between now (Entry.timestamp entry) in
        if 20 <? elapsedMinutes then
          (mkState (delete repoKey (registry st)) (graphCreationLocks st), false)
        else (st, true)
      else (st, false)
  | None => (st, false)
  end.

Definition clearStaleLocks (repoKey : string) (now : Z) (st : service_state)
  : service_state :=
  let st1 :=
    match registry st !! repoKey with
    | Some entry =>
        let elapsedMinutes := minutes_between now (Entry.timestamp entry) in
        if 10 <? elapsedMinutes then
          mkState (delete repoKey (registry st))
                  (delete (timestamp_key repoKey)
                     (delete repoKey (graphCreationLocks st)))
        else st
    | None => st
    end in
  match graphCreationLocks st1 !! timestamp_key repoKey with
  | Some legacyTimestamp =>
      if truthy legacyTimestamp then
        let elapsedMinutes := minutes_between now (to_number legacyTimestamp) in
        if 10 <? elapsedMinutes then
          mkState (registry st1)
                  (delete (timestamp_key repoKey)
                     (delete repoKey (graphCreationLocks st1)))
        else st1
      else st1
  | None => st1
  end.

(** [existing?.timestamp || Date.now ()]: a stored timestamp of 0 is falsy. *)
Definition timestamp_or_now (existing : option Entry.t) (now : Z) : Z :=
  match existing with
  | Some e => if Entry.timestamp e =? 0 then now else Entry.timestamp e
  | None => now
  end.

Definition setCreationLock (repoKey : string) (status : bool) (now : Z)
    (st : service_state) : service_state :=
  let registry' :=
    if status then
      let existing := registry st !! repoKey in
      let timestamp := timestamp_or_now existing now in
      <[repoKey := Entry.mk true timestamp "Initializing analysis"]> (registry st)
    else delete repoKey (registry st) in
  let locks1 := <[repoKey := LBool status]> (graphCreationLocks st) in
  let locks2 :=
    if status && negb (bool_decide (is_Some (locks1 !! timestamp_key repoKey)))
    then <[timestamp_key repoKey := LNum now]> locks1
    else locks1 in
  mkState registry' locks2.

Definition not_in_progress : Progress.t :=
  Progress.mk false 0 "N/A" "Complete".

Definition getCreationProgress (repoKey : string) (now : Z) (st : service_state)
  : service_state * Progress.t :=
  match registry st !! repoKey with
  | Some entry =>
      if Entry.inProgress entry then
        let elapsedMinutes := minutes_between now (Entry.timestamp entry) in
        if 20 <? elapsedMinutes then
          (mkState (delete repoKey (registry st)) (graphCreationLocks st),
           not_in_progress)
        else
          let phase :=
            if elapsedMinutes <? 10 then "Analyzing repository"
            else "Completing analysis" in
          let estimatedRemaining :=
            if elapsedMinutes <? 10 then "5-10 minutes"
            else "Should complete soon" in
          (st, Progress.mk true elapsedMinutes estimatedRemaining phase)
      else (st, not_in_progress)
  | None => (st, not_in_progress)
  end.

(** ** Snippet rendering and path extraction (DefaultRepoHandler.ts) *)

(** [xs.slice (start, stop)] with JavaScript's relative indices: a negative
    index counts from the end, and both ends are clamped to the array. An
    absent [stop] is the length. *)
Definition slice {A : Type} (start : Z) (stop : option Z) (xs : list A) : list A :=
  let len := Z.of_nat (length xs) in
  let k := if start <? 0 then Z.max (len + start) 0 else Z.min start len in
  let fin :=
    match stop with
    | None => len
    | Some e => if e <? 0 then Z.max (len + e) 0 else Z.min e len
    end in
  take (Z.to_nat (fin - k)) (drop (Z.to_nat k) xs).

Definition CONTEXT_RADIUS : Z := 5.

(** The body of the [snippet.map] callback: marker, padded number, text. *)
Definition renderLine (line startLine : Z) (lineIndex : nat) (codeLine : string)
  : string :=
  let actualLineNumber := startLine + Z.of_nat lineIndex + 1 in
  let marker := if actualLineNumber =? line then ">>>" else "   " in
  marker +:+ " " +:+ padStart 3 (toString actualLineNumber) +:+ ": " +:+ codeLine.

(** The rendering of the window around [line] in the lines of a file. *)
Definition renderLines (lines : list string) (line : Z) : string :=
  let centerLine := line - 1 in
  let startLine := Z.max 0 (centerLine - CONTEXT_RADIUS) in
  let endLine := Z.min (Z.of_nat (length lines) - 1) (centerLine + CONTEXT_RADIUS) in
  let snippet := slice startLine (Some (endLine + 1)) lines in
  join LF (imap (renderLine line startLine) snippet).

Definition renderSnippet (fileContent : string) (line : Z) : string :=
  renderLines (split_on (ascii_of_nat 10) fileContent) line.

(** *** The pattern [/.*\/repositories\/[^\/]+\/(.+)$/]

    Matching is written as JavaScript performs it: by backtracking, every
    quantifier greedy, the leftmost start position that admits a match
    winning. A matcher takes the rest of the input and a continuation. *)

(** [.] matches any code unit but a line terminator: line feed, carriage
    return, and U+2028 and U+2029, which are the byte sequences E2 80 A8 and
    E2 80 A9. The test looks at the input from the position to match. *)
Definition dot (s : string) : bool :=
  match s with
  | EmptyString => false
  | String c rest =>
      let n := nat_of_ascii c in
      if ((n =? 10) || (n =? 13))%nat then false
      else match rest with
           | String c1 (String c2 _) =>
               negb ((n =? 226)%nat && (nat_of_ascii c1 =? 128)%nat
                     && ((nat_of_ascii c2 =? 168)%nat || (nat_of_ascii c2 =? 169)%nat))
           | _ => true
           end
  end.

(** [[^\/]] *)
Definition not_slash (s : string) : bool :=
  match s with
  | EmptyString => false
  | String c _ => negb (Ascii.eqb c "/")
  end.

(** Greedy [cls*]: the longer match is tried first, the continuation on the
    current position last. *)
Fixpoint star {R : Type} (cls : string -> bool) (k : string -> option R)
    (s : string) : option R :=
  match s with
  | EmptyString => k s
  | String _ s' =>
      if cls s then
        match star cls k s' with
        | Some r => Some r
        | None => k s
        end
      else k s
  end.

(** Greedy [cls+] *)
Definition plus {R : Type} (cls : string -> bool) (k : string -> option R)
    (s : string) : option R :=
  match s with
  | EmptyString => None
  | String _ s' => if cls s then star cls k s' else None
  end.

(** Greedy [cls*] inside a capturing group: [acc] is the text captured so far. *)
Fixpoint star_capture {R : Type} (cls : string -> bool)
    (k : string -> string -> option R) (acc : string) (s : string) : option R :=
  match s with
  | EmptyString => k acc s
  | String c s' =>
      if cls s then
        match star_capture cls k (acc +:+ String c "") s' with
        | Some r => Some r
        | None => k acc s
        end
      else k acc s
  end.

(** [(cls+)] *)
Definition plus_capture {R : Type} (cls : string -> bool)
    (k : string -> string -> option R) (s : string) : option R :=
  match s with
  | EmptyString => None
  | String c s' => if cls s then star_capture cls k (String c "") s' else None
  end.

Fixpoint strip_prefix (p s : string) : option string :=
  match p, s with
  | EmptyString, _ => Some s
  | String a p', String b s' => if Ascii.eqb a b then strip_prefix p' s' else None
  | String _ _, EmptyString => None
  end.

(** A literal *)
Definition lit {R : Type} (p : string) (k : string -> option R) (s : string)
  : option R :=
  match strip_prefix p s with
  | Some s' => k s'
  | None => None
  end.

(** [$] after the group: succeeds at the end of the input with the capture. *)
Definition at_end (captured rest : string) : option string :=
  match rest with
  | EmptyString => Some captured
  | String _ _ => None
  end.

(** The pattern matched at the start of [s]; the result is group 1. *)
Definition pathPattern (s : string) : option string :=
  star dot (lit "/repositories/" (plus not_slash (lit "/" (plus_capture dot at_end)))) s.

(** [String.prototype.match]: start positions from left to right. *)
Fixpoint search {R : Type} (m : string -> option R) (s : string) : option R :=
  match m s with
  | Some r => Some r
  | None =>
      match s with
      | EmptyString => None
      | String _ s' => search m s'
      end
  end.

Definition pathMatch (path : string) : option string := search pathPattern path.

(** [pathMatch ? pathMatch[1] : path.split ("/").slice (-2).join ("/")] *)
Definition relativePath (path : string) : string :=
  match pathMatch path with
  | Some rest => rest
  | None => join "/" (slice (-2) None (split_on "/" path))
  end.

(** ** Promises with their settlement times

    [Resolved d v]: fulfilled with [v], [d] milliseconds after the call;
    [Rejected d]: rejected after [d] milliseconds; [Pending]: never settled.
    Synchronous code takes no time. *)

Inductive settle (A : Type) : Type :=
| Resolved (d : Z) (v : A)
| Rejected (d : Z)
| Pending.

Arguments Resolved {A} d v.
Arguments Rejected {A} d.
Arguments Pending {A}.

(** [later d p]: the promise [p], started after [d] milliseconds. *)
Definition later {A : Type} (d : Z) (p : settle A) : settle A :=
  match p with
  | Resolved d' v => Resolved (d + d') v
  | Rejected d' => Rejected (d + d')
  | Pending => Pending
  end.

(** [const v = await p; k v] *)
Definition andThen {A B : Type} (p : settle A) (k : A -> settle B) : settle B :=
  match p with
  | Resolved d v => later d (k v)
  | Rejected d => Rejected d
  | Pending => Pending
  end.

(** [try { p } catch { v }] *)
Definition orElse {A : Type} (p : settle A) (v : A) : settle A :=
  match p with
  | Rejected d => Resolved d v
  | _ => p
  end.

(** [try { p } finally { await c }]: the outcome of [p] once [c] is done,
    unless [c] itself fails or hangs. *)
Definition andFinally {A B : Type} (p : settle A) (c : settle B) : settle A :=
  match p with
  | Resolved d v => later d (andThen c (fun _ => Resolved 0 v))
  | Rejected d => later d (andThen c (fun _ => Rejected 0))
  | Pending => Pending
  end.

(** [Promise.race ([p, timer])] where the timer rejects after [limit]
    milliseconds. When both are due in the same millisecond, [timerFirst]
    says which callback the event loop ran first. *)
Definition raceTimeout {A : Type} (limit : Z) (timerFirst : bool) (p : settle A)
  : settle A :=
  let wins (d : Z) := (d <? limit) || ((d =? limit) && negb timerFirst) in
  match p with
  | Resolved d v => if wins d then Resolved d v else Rejected limit
  | Rejected d => if wins d then Rejected d else Rejected limit
  | Pending => Rejected limit
  end.

(** [Promise.all]: fulfilled when the last one is, rejected with the first
    rejection. [allResolved] is the case without a rejection. *)
Fixpoint allResolved {A : Type} (ps : list (settle A)) : settle (list A) :=
  match ps with
  | [] => Resolved 0 []
  | p :: rest =>
      match p, allResolved rest with
      | Resolved d v, Resolved d' vs => Resolved (Z.max d d') (v :: vs)
      | _, _ => Pending
      end
  end.

Fixpoint firstRejection {A : Type} (ps : list (settle A)) : option Z :=
  match ps with
  | [] => None
  | p :: rest =>
      match p, firstRejection rest with
      | Rejected d, Some d' => Some (Z.min d d')
      | Rejected d, None => Some d
      | _, r => r
      end
  end.

Definition promiseAll {A : Type} (ps : list (settle A)) : settle (list A) :=
  match firstRejection ps with
  | Some d => Rejected d
  | None => allResolved ps
  end.

(** ** The graph store and the analysis service, seen from the code *)

(** [checkGraphExists]: [listing] is the outcome of connecting to the store
    and listing its graphs; a failure is reported as [false]. *)
Definition checkGraphExists (graphName : string) (listing : settle (list string))
  : settle bool :=
  orElse (andThen listing
            (fun graphs => Resolved 0 (bool_decide (graphName ∈ graphs))))
         false.

Record CodeGraphConfig : Type := mkConfig
  { serverUrl : string;
    serverPort : Z;
    authToken : string;
    ignorePatterns : list string }.

Definition getCodeGraphApiUrl (config : CodeGraphConfig) : string :=
  serverUrl config +:+ ":" +:+ toString (serverPort config) +:+ "/analyze_repo".

Definition getGitHubRepoUrl (owner repo : string) : string :=
  "https://github.com/" +:+ owner +:+ "/" +:+ repo.

(** The POST request that asks the analysis service for a build. *)
Record BuildRequest : Type := mkRequest
  { apiUrl : string;
    authorization : string;
    repo_url : string;
    ignore : list string }.

(** Modelled from the spec: the declaration of [RepoData] (shared/repoData)
    is not among the sources. The identity of a repository is an owner and a
    repository name, either of which may be absent ([null]). *)
Record RepoData : Type := mkRepo
  { owner : option string;
    repo : option string }.

(** An absent part inside a template literal prints as [null]. *)
Definition templateString (o : option string) : string :=
  match o with
  | Some s => s
  | None => "null"
  end.

Definition repoKeyOf (repoData : RepoData) : string :=
  templateString (owner repoData) +:+ "/" +:+ templateString (repo repoData).

(** ** The supervised background build (graphTools.ts) *)

(** What a timer of the event loop does when it fires. *)
Inductive timer_action : Type :=
| CleanupLocks (repoKey : string).

(** The service together with the timers that are armed (due time, action),
    in the order in which the event loop will run them. *)
Record runtime : Type := mkRuntime
  { service : service_state;
    timers : list (Z * timer_action) }.

(** [setTimeout]: the new timer runs after those that are due no later. *)
Fixpoint armTimer (due : Z) (a : timer_action) (ts : list (Z * timer_action))
  : list (Z * timer_action) :=
  match ts with
  | [] => [(due, a)]
  | (due', a') :: rest =>
      if due' <=? due then (due', a') :: armTimer due a rest
      else (due, a) :: ts
  end.

(** What the routine meets outside: the [n]-th listing of the store's graphs
    (0 for the check before the request, then one per polling attempt), the
    POST request (whether the response is [ok]) and the reading of its body. *)
Record build_env : Type := mkBuildEnv
  { listingAt : nat -> settle (list string);
    analysisRequest : settle bool;
    responseText : settle string;
    abortFirst : bool }.

Definition POLL_INTERVAL : Z := 30 * 1000.
Definition MAX_ATTEMPTS : nat := 15.
Definition REQUEST_TIMEOUT : Z := 10 * 60 * 1000.
Definition CLEANUP_DELAY : Z := 2 * 60 * 1000.

Definition graphListed (graphName : option string) (listing : settle (list string))
  : settle bool :=
  match graphName with
  | Some g => checkGraphExists g listing
  | None => orElse (andThen listing (fun _ => Resolved 0 false)) false
  end.

(** The polling loop, [remaining] iterations before the budget is spent. *)
Fixpoint pollGraph (graphName : option string) (listing : nat -> settle (list string))
    (remaining attempts : nat) : settle unit :=
  match remaining with
  | O => Resolved 0 tt
  | S remaining' =>
      let attempts' := S attempts in
      later POLL_INTERVAL
        (andThen (graphListed graphName (listing attempts'))
           (fun graphExists =>
              if graphExists then Resolved 0 tt
              else pollGraph graphName listing remaining' attempts'))
  end.

(** The [try] block: the check, the request under its abort signal (which
    also covers the reading of the body), and the polling. A response that
    is not [ok] throws. *)
Definition buildAttempt (env : build_env) (graphName : option string)
  : settle unit :=
  andThen (graphListed graphName (listingAt env 0))
    (fun exists_ =>
       if exists_ then Resolved 0 tt
       else
         andThen
           (raceTimeout REQUEST_TIMEOUT (abortFirst env)
              (andThen (analysisRequest env)
                 (fun ok => andThen (responseText env)
                              (fun _ => Resolved 0 ok))))
           (fun ok =>
              if ok then pollGraph graphName (listingAt env) MAX_ATTEMPTS 0
              else Rejected 0)).

(** The requests the routine sends: one, unless the graph was found (or the
    store never answered) before. *)
Definition buildRequests (env : build_env) (config : CodeGraphConfig)
    (repoData : RepoData) : list BuildRequest :=
  match graphListed (repo repoData) (listingAt env 0) with
  | Resolved _ false =>
      [ mkRequest (getCodeGraphApiUrl config) (authToken config)
          (getGitHubRepoUrl (templateString (owner repoData))
             (templateString (repo repoData)))
          (ignorePatterns config) ]
  | _ => []
  end.

Record build_run : Type := mkRun
  { after : runtime;
    finished : settle unit;
    requests : list BuildRequest }.

Definition startBackgroundCreation (env : build_env) (config : CodeGraphConfig)
    (repoData : RepoData) (now : Z) (rt : runtime) : build_run :=
  let repoKey := repoKeyOf repoData in
  let st1 := setCreationLock repoKey true now (service rt) in
  let st2 :=
    mkState (registry st1)
      (<[timestamp_key repoKey := LNum now]> (graphCreationLocks st1)) in
  (* try ... catch: an error is logged, the routine goes on to [finally] *)
  let body := orElse (buildAttempt env (repo repoData)) tt in
  (* finally: arm the cleanup timer *)
  let timers' :=
    match body with
    | Resolved d _ => armTimer (now + d + CLEANUP_DELAY) (CleanupLocks repoKey) (timers rt)
    | _ => timers rt
    end in
  mkRun (mkRuntime st2 timers') body (buildRequests env config repoData).

(** The callback of the cleanup timer. *)
Definition fireTimer (a : timer_action) (now : Z) (st : service_state)
  : service_state :=
  match a with
  | CleanupLocks repoKey =>
      let st1 := setCreationLock repoKey false now st in
      mkState (registry st1) (delete (timestamp_key repoKey) (graphCreationLocks st1))
  end.

(** The event loop up to time [now]: the timers that are due fire, each at
    its due time, first due first. *)
Fixpoint fireDue (now : Z) (ts : list (Z * timer_action)) (st : service_state)
  : service_state * list (Z * timer_action) :=
  match ts with
  | [] => (st, [])
  | (due, a) :: rest =>
      if due <=? now then fireDue now rest (fireTimer a due st)
      else (st, ts)
  end.

Definition advanceTo (now : Z) (rt : runtime) : runtime :=
  let '(st', ts') := fireDue now (timers rt) (service rt) in
  mkRuntime st' ts'.

(** ** The [fetchUsageCodeExamples] callback (DefaultRepoHandler.ts) *)

(** *** The texts of the responses *)

Definition msgInvalidRepo : string :=
  "❌ Error: Invalid repository data. Owner and repository name cannot be empty.".

Definition msgStillInProgress (repoKey : string) (p : Progress.t)
    (functionName : string) : string :=
  "🔄 **Graph Creation Still In Progress for " +:+ repoKey +:+ "**" +:+ LF +:+ LF
  +:+ "⏱️ **Current Status**: " +:+ Progress.phase p +:+ LF
  +:+ "📊 **Elapsed Time**: " +:+ toString (Progress.elapsedMinutes p) +:+ " minutes" +:+ LF
  +:+ "⌛ **Estimated Remaining**: " +:+ Progress.estimatedRemaining p +:+ LF +:+ LF
  +:+ "🔄 **Please wait a bit longer and try again:**" +:+ LF
  +:+ DQ +:+ "Show me code examples of how to use the " +:+ functionName +:+ " function" +:+ DQ
  +:+ LF +:+ LF
  +:+ "💡 *The graph analysis is still building function relationships. Once complete, you'll get detailed code examples.*".

Definition msgNoCallers (functionName : string) : string :=
  "🔍 No calling functions found for " +:+ DQ +:+ functionName +:+ DQ +:+ "." +:+ LF +:+ LF
  +:+ "This could mean:" +:+ LF
  +:+ "1. The function doesn't exist in the codebase" +:+ LF
  +:+ "2. No other functions call this function" +:+ LF
  +:+ "3. The function name might be misspelled" +:+ LF
  +:+ "4. The function might be called dynamically (not statically analyzable)" +:+ LF +:+ LF
  +:+ "Try searching for similar function names or check if the function exists in the repository.".

Definition msgFallback (name relPath : string) (line : Z) (functionName : string)
  : string :=
  "Function: " +:+ name +:+ LF
  +:+ "File: " +:+ relPath +:+ ":" +:+ toString line +:+ LF
  +:+ "Calls: " +:+ functionName +:+ LF +:+ LF
  +:+ "(Code content temporarily unavailable)".

Definition INDENT : string := "                            ".

Definition msgExample (index : nat) (name relPath : string) (line : Z)
    (functionName codeSnippet : string) : string :=
  "## Code Example " +:+ toString (Z.of_nat index + 1) +:+ ": " +:+ name +:+ LF +:+ LF
  +:+ INDENT +:+ "File: " +:+ relPath +:+ ":" +:+ toString line +:+ LF
  +:+ INDENT +:+ "Calls: " +:+ functionName +:+ LF +:+ LF
  +:+ INDENT +:+ "```" +:+ LF
  +:+ INDENT +:+ codeSnippet +:+ LF
  +:+ INDENT +:+ "```" +:+ LF
  +:+ INDENT.

Definition msgResults (functionName : string) (count : nat)
    (codeExamples : list string) : string :=
  "📋 Code Example Results for " +:+ DQ +:+ functionName +:+ DQ +:+ " function:" +:+ LF +:+ LF
  +:+ "Found " +:+ toString (Z.of_nat count) +:+ " function"
  +:+ (if (count =? 1)%nat then "" else "s")
  +:+ " that call " +:+ DQ +:+ functionName +:+ DQ +:+ ":" +:+ LF +:+ LF
  +:+ join (LF +:+ LF) codeExamples.

Definition msgSearchTimeout (functionName : string) : string :=
  "⏱️ **Search Timeout**" +:+ LF +:+ LF
  +:+ "The search for " +:+ DQ +:+ functionName +:+ DQ
  +:+ " is taking too long. Please try again." +:+ LF +:+ LF
  +:+ "**Possible causes:**" +:+ LF
  +:+ "• Large repository analysis in progress" +:+ LF
  +:+ "• Database temporarily busy" +:+ LF
  +:+ "• Complex query processing" +:+ LF +:+ LF
  +:+ "**Try again in a moment!**".

Definition msgInProgress (repoKey : string) (p : Progress.t)
    (functionName : string) : string :=
  "🔄 **Graph Creation In Progress for " +:+ repoKey +:+ "**" +:+ LF +:+ LF
  +:+ "⏱️ **Current Status**: " +:+ Progress.phase p +:+ LF
  +:+ "📊 **Elapsed Time**: " +:+ toString (Progress.elapsedMinutes p) +:+ " minutes" +:+ LF
  +:+ "⌛ **Estimated Remaining**: " +:+ Progress.estimatedRemaining p +:+ LF +:+ LF
  +:+ "🔄 **Please wait and try your question again in a few minutes:**" +:+ LF
  +:+ DQ +:+ "Show me code examples of how to use the " +:+ functionName +:+ " function" +:+ DQ
  +:+ LF +:+ LF
  +:+ "💡 *The system is analyzing the repository to build a knowledge graph of function relationships. This process takes time but enables precise code example searches.*".

Definition msgStarting (repoKey functionName : string) : string :=
  "🚀 **Starting Code Analysis for " +:+ repoKey +:+ "**" +:+ LF +:+ LF
  +:+ "✅ **Graph creation has been initiated!** The system is now analyzing the repository to build a knowledge graph of function relationships." +:+ LF +:+ LF
  +:+ "⏱️ **Estimated Time**: 5-10 minutes" +:+ LF
  +:+ "📊 **What's happening**: " +:+ LF
  +:+ "  • Scanning repository structure" +:+ LF
  +:+ "  • Analyzing function definitions" +:+ LF
  +:+ "  • Mapping function call relationships" +:+ LF
  +:+ "  • Building searchable graph database" +:+ LF +:+ LF
  +:+ "🔄 **Please ask your question again in about 5-10 minutes:**" +:+ LF
  +:+ DQ +:+ "Show me code examples of how to use the " +:+ functionName +:+ " function" +:+ DQ
  +:+ LF +:+ LF
  +:+ "💡 *This one-time setup enables fast and precise code example searches for this repository!*".

(** The text of the outer [catch]. *)
Definition msgProcessingError (functionName errorMessage : string) : string :=
  "❌ Error processing code examples for " +:+ DQ +:+ functionName +:+ DQ +:+ ": "
  +:+ errorMessage.

(** *** Validation of the repository identity *)

(** The white space that [trim] removes, in three-byte UTF-8 form: U+1680,
    U+2000 to U+200A, U+2028, U+2029, U+202F, U+205F, U+3000, U+FEFF. *)
Definition white3 (a b c : nat) : bool :=
  (((a =? 225) && (b =? 154) && (c =? 128))
   || ((a =? 226) && (b =? 128)
       && ((128 <=? c) && (c <=? 138) || (c =? 168) || (c =? 169) || (c =? 175)))
   || ((a =? 226) && (b =? 129) && (c =? 159))
   || ((a =? 227) && (b =? 128) && (c =? 128))
   || ((a =? 239) && (b =? 187) && (c =? 191)))%nat.

(** [s.trim () === ""] *)
Fixpoint allWhite (s : string) : bool :=
  match s with
  | EmptyString => true
  | String c s1 =>
      let n := nat_of_ascii c in
      if ((9 <=? n) && (n <=? 13) || (n =? 32))%nat then allWhite s1
      else
        match s1 with
        | EmptyString => false
        | String c1 s2 =>
            if ((n =? 194) && (nat_of_ascii c1 =? 160))%nat then allWhite s2
            else
              match s2 with
              | EmptyString => false
              | String c2 s3 =>
                  if white3 n (nat_of_ascii c1) (nat_of_ascii c2) then allWhite s3
                  else false
              end
        end
  end.

(** [!x || x.trim () === ""] *)
Definition isBlank (o : option string) : bool :=
  match o with
  | None => true
  | Some s => allWhite s
  end.

(** *** The lookup pipeline *)

Record Caller : Type := mkCaller
  { name : string;
    path : string;
    line : Z }.

(** What one request meets outside: whether the service, a singleton,
    holds a client when the request starts (one that an earlier use left
    open), the connection the service opens when it holds none, the listing
    of the store's graphs by the client of the service, the connection opened
    for the query, the answer of [getFunctionInfo] (for a function name and a
    limit), the default branch, the fetch of the file of the caller at an
    index (for a branch and a path), the closing of the connection of the
    query and the closing of the client of the service. *)
Record request_env : Type := mkEnv
  { serviceClient : bool;
    serviceConnection : settle unit;
    graphList : settle (list string);
    connection : settle unit;
    functionInfo : string -> Z -> settle (list Caller);
    repoBranch : settle string;
    fileFromGitHub : nat -> string -> string -> settle (option string);
    closing : settle unit;
    disconnecting : settle unit;
    timerFirst : bool }.

(** [connect ()]: the client the service holds, or else a new connection. *)
Definition serviceConnect (env : request_env) : settle unit :=
  if serviceClient env then Resolved 0 () else serviceConnection env.

(** What the [try] of [checkGraphExists] comes to: connect, then list. *)
Definition storeListing (env : request_env) : settle (list string) :=
  andThen (serviceConnect env) (fun _ => graphList env).

(** Whether the service holds a client once [checkGraphExists] has run: the
    one it held before, or the one that [connect] opened. *)
Definition clientAfterCheck (env : request_env) : bool :=
  serviceClient env
  || match serviceConnection env with
     | Resolved _ _ => true
     | _ => false
     end.

(** [disconnect ()]: closes the client when the service holds one, and does
    nothing when it holds none. *)
Definition disconnect (env : request_env) (client : bool) : settle unit :=
  if client then disconnecting env else Resolved 0 ().

Definition FETCH_TIMEOUT : Z := 5000.
Definition OPERATION_TIMEOUT : Z := 8000.

(** The text between the fences of one example: the rendered window when
    the file arrived in time as a non-empty string, the fallback otherwise. *)
Definition codeSnippetOf (caller : Caller) (relPath functionName : string)
    (fileContent : settle (option string)) : settle string :=
  let fallback := msgFallback (name caller) relPath (line caller) functionName in
  orElse
    (andThen fileContent
       (fun content =>
          match content with
          | Some (String c text) => Resolved 0 (renderSnippet (String c text) (line caller))
          | _ => Rejected 0
          end))
    fallback.

(** The callback of [callers.map]. *)
Definition codeExample (env : request_env) (functionName defaultBranch : string)
    (index : nat) (caller : Caller) : settle string :=
  let relPath := relativePath (path caller) in
  let fileContent :=
    raceTimeout FETCH_TIMEOUT (timerFirst env)
      (fileFromGitHub env index defaultBranch relPath) in
  andThen (codeSnippetOf caller relPath functionName fileContent)
    (fun codeSnippet =>
       Resolved 0
         (msgExample index (name caller) relPath (line caller) functionName codeSnippet)).

(** The work between opening and closing the connection. It starts at
    [now]; the registry is read when the query has answered. *)
Definition graphOperation (env : request_env) (repoKey functionName : string)
    (limit : Z) (now : Z) (st : service_state) : service_state * settle string :=
  match functionInfo env functionName limit with
  | Resolved d callers =>
      match callers with
      | [] =>
          let '(st', creationProgress) := getCreationProgress repoKey (now + d) st in
          (st', Resolved d
                  (if Progress.inProgress creationProgress
                   then msgStillInProgress repoKey creationProgress functionName
                   else msgNoCallers functionName))
      | _ :: _ =>
          (st, later d
                 (andThen (repoBranch env)
                    (fun defaultBranch =>
                       andThen
                         (promiseAll (imap (codeExample env functionName defaultBranch) callers))
                         (fun codeExamples =>
                            Resolved 0
                              (msgResults functionName (length callers) codeExamples)))))
      end
  | Rejected d => (st, Rejected d)
  | Pending => (st, Pending)
  end.

(** The first contestant of the race: connect, work, and close in [finally]. *)
Definition lookupPipeline (env : request_env) (repoKey functionName : string)
    (limit : Z) (now : Z) (st : service_state) : service_state * settle string :=
  match connection env with
  | Resolved d _ =>
      let '(st', work) := graphOperation env repoKey functionName limit (now + d) st in
      (st', later d (andFinally work (closing env)))
  | Rejected d => (st, Rejected d)
  | Pending => (st, Pending)
  end.

(** The branch taken when the graph exists: the pipeline raced against the
    operation timer, any rejection answered with the timeout text. *)
Definition graphExistsBranch (env : request_env) (repoKey functionName : string)
    (limit : Z) (now : Z) (st : service_state) : service_state * settle string :=
  let '(st', pipeline) := lookupPipeline env repoKey functionName limit now st in
  (st', orElse (raceTimeout OPERATION_TIMEOUT (timerFirst env) pipeline)
               (msgSearchTimeout functionName)).

(** *** The branch taken when the graph is absent *)

Record branch_result : Type := mkBranch
  { text : string;
    state : service_state;
    sent : list BuildRequest }.

Definition FORCE_CLEAR_MINUTES : Z := 5.

Definition graphMissingBranch (config : CodeGraphConfig) (ownerName repoName : string)
    (functionName : string) (now : Z) (st : service_state) : branch_result :=
  let repoKey := ownerName +:+ "/" +:+ repoName in
  (* FIRST *)
  let st1 := clearStaleLocks repoKey now st in
  (* SECOND *)
  let '(st2, progress) := getCreationProgress repoKey now st1 in
  let st3 :=
    if Progress.inProgress progress
       && (FORCE_CLEAR_MINUTES <=? Progress.elapsedMinutes progress)
    then
      let st' := setCreationLock repoKey false now st2 in
      mkState (delete repoKey (registry st')) (graphCreationLocks st')
    else st2 in
  (* THEN *)
  let '(st4, finalProgress) := getCreationProgress repoKey now st3 in
  if Progress.inProgress finalProgress then
    mkBranch (msgInProgress repoKey finalProgress functionName) st4 []
  else
    let st5 := setCreationLock repoKey true now st4 in
    mkBranch (msgStarting repoKey functionName) st5
      [ mkRequest (getCodeGraphApiUrl config) (authToken config)
          (getGitHubRepoUrl ownerName repoName) (ignorePatterns config) ].

(** *** The callback *)

Record handler_result : Type := mkResult
  { response : settle string;
    finalState : service_state;
    triggered : list BuildRequest }.

(** [now] is the time of the call. The answer of the callback waits for
    [disconnect] in the outer [finally]: for the closing of the client when
    the service holds one, which it does not when the identity is refused
    before the check of the store and no client was left open, or when the
    connection of the check failed. The outer [catch] stands behind the check
    of the store only, which does not reject. *)
Definition fetchUsageCodeExamples (env : request_env) (config : CodeGraphConfig)
    (repoData : RepoData) (functionName : string) (limit : Z) (now : Z)
    (st : service_state) : handler_result :=
  if isBlank (owner repoData) || isBlank (repo repoData) then
    mkResult
      (andFinally (Resolved 0 msgInvalidRepo) (disconnect env (serviceClient env)))
      st []
  else
    let ownerName := templateString (owner repoData) in
    let graphName := templateString (repo repoData) in
    let repoKey := ownerName +:+ "/" +:+ graphName in
    let atEnd := disconnect env (clientAfterCheck env) in
    match checkGraphExists graphName (storeListing env) with
    | Resolved d true =>
        let '(st', answer) :=
          graphExistsBranch env repoKey functionName limit (now + d) st in
        mkResult (andFinally (later d answer) atEnd) st' []
    | Resolved d false =>
        let r := graphMissingBranch config ownerName graphName functionName (now + d) st in
        mkResult (andFinally (Resolved d (text r)) atEnd) (state r) (sent r)
    | Rejected d =>
        mkResult
          (andFinally (Resolved d (msgProcessingError functionName "Unknown error")) atEnd)
          st []
    | Pending => mkResult Pending st []
    end.

(** ** Notions used to state the properties *)

Definition emptyState : service_state := mkState ∅ ∅.

(** Every record of the registry is in progress: being idle is having no
    record. *)
Definition registry_ok (st : service_state) : Prop :=
  forall (key : string) (e : Entry.t),
    registry st !! key = Some e -> Entry.inProgress e = true.

(** The operations through which the code reaches the registry. *)
Inductive registry_op : Type :=
| OpSetLock (repoKey : string) (status : bool) (now : Z)
| OpClearStale (repoKey : string) (now : Z)
| OpGetProgress (repoKey : string) (now : Z)
| OpIsInProgress (repoKey : string) (now : Z)
| OpBuild (env : build_env) (config : CodeGraphConfig) (repoData : RepoData) (now : Z)
| OpTimer (a : timer_action) (now : Z)
| OpRequest (env : request_env) (config : CodeGraphConfig) (repoData : RepoData)
    (functionName : string) (limit : Z) (now : Z).

Definition apply_op (op : registry_op) (st : service_state) : service_state :=
  match op with
  | OpSetLock k status now => setCreationLock k status now st
  | OpClearStale k now => clearStaleLocks k now st
  | OpGetProgress k now => (getCreationProgress k now st).1
  | OpIsInProgress k now => (isCreationInProgress k now st).1
  | OpBuild env config repoData now =>
      service (after (startBackgroundCreation env config repoData now (mkRuntime st [])))
  | OpTimer a now => fireTimer a now st
  | OpRequest env config repoData f limit now =>
      finalState (fetchUsageCodeExamples env config repoData f limit now st)
  end.

(** The window of the specification: the lines with 0-based index from
    [max 0 (target - 1 - radius)] to [min lastIndex (target - 1 + radius)],
    each with its marker and its 1-based number. *)
Definition windowLine (lines : list string) (target : Z) (i : Z) : string :=
  (if i + 1 =? target then ">>>" else "   ") +:+ " "
  +:+ padStart 3 (toString (i + 1)) +:+ ": " +:+ nth (Z.to_nat i) lines "".


(** No line terminator, and no slash, anywhere in a string. *)
Fixpoint allDot (s : string) : bool :=
  match s with
  | EmptyString => true
  | String _ s' => dot s && allDot s'
  end.

Fixpoint noSlash (s : string) : bool :=
  match s with
  | EmptyString => true
  | String _ s' => not_slash s && noSlash s'
  end.

(** The shape [<before>/repositories/<one segment>/<rest>]. *)
Definition patternShape (path before segment rest : string) : Prop :=
  path = before +:+ "/repositories/" +:+ segment +:+ "/" +:+ rest
  /\ segment <> "" /\ noSlash segment = true
  /\ rest <> "" /\ allDot rest = true.

Definition matchesPattern (path : string) : Prop :=
  exists before segment rest, patternShape path before segment rest.

(** Whether a character occurs in a string. *)
Fixpoint occurs (c : ascii) (s : string) : bool :=
  match s with
  | EmptyString => false
  | String a s' => Ascii.eqb a c || occurs c s'
  end.


(** The last two elements of a list (all of it when it is shorter). *)
Definition lastTwo {A : Type} (xs : list A) : list A :=
  drop (length xs - 2) xs.


(** The text of the example of the caller at [index], without its timing. *)
Definition exampleText (env : request_env) (functionName defaultBranch : string)
    (index : nat) (caller : Caller) : string :=
  let relPath := relativePath (path caller) in
  let codeSnippet :=
    match raceTimeout FETCH_TIMEOUT (timerFirst env)
            (fileFromGitHub env index defaultBranch relPath) with
    | Resolved _ (Some (String c content)) =>
        renderSnippet (String c content) (line caller)
    | _ => msgFallback (name caller) relPath (line caller) functionName
    end in
  msgExample index (name caller) relPath (line caller) functionName codeSnippet.

(** ** Sample data for the concrete cases *)

Definition firstByte (s : string) : option ascii :=
  match s with
  | EmptyString => None
  | String c _ => Some c
  end.

Definition sampleConfig : CodeGraphConfig :=
  mkConfig "http://127.0.0.1" 5000 "secret" ["./.git"; "./node_modules"].

Definition sampleRepo : RepoData := mkRepo (Some "octo") (Some "demo").

(** A registry with one lock, set at time [t]. *)
Definition lockedAt (t : Z) : service_state :=
  setCreationLock "octo/demo" true t emptyState.

Definition sampleCallers : list Caller :=
  [ mkCaller "load" "/data/repositories/demo/src/load.ts" 2;
    mkCaller "save" "/data/repositories/demo/src/save.ts" 7 ].

Definition sampleFile : string := "import a" +:+ LF +:+ "parse(a)" +:+ LF +:+ "done".

(** The store lists no graph. In each of these cases the service holds no
    client at first, connects in 4 ms and lists the graphs in 6 ms. *)
Definition noGraphEnv : request_env :=
  mkEnv false (Resolved 4 ()) (Resolved 6 []) (Resolved 20 ())
    (fun _ _ => Resolved 100 [])
    (Resolved 50 "main") (fun _ _ _ => Pending) (Resolved 5 ()) (Resolved 1 ()) true.

(** The graph exists and has two callers; the file of the first arrives, the
    fetch of the second never settles. *)
Definition oneFetchHangsEnv : request_env :=
  mkEnv false (Resolved 4 ()) (Resolved 6 ["demo"]) (Resolved 20 ())
    (fun _ _ => Resolved 100 sampleCallers)
    (Resolved 50 "main")
    (fun i _ _ => match i with O => Resolved 300 (Some sampleFile) | _ => Pending end)
    (Resolved 5 ()) (Resolved 1 ()) true.

(** As before with both files arriving, but the branch lookup is slow. *)
Definition slowBranchEnv : request_env :=
  mkEnv false (Resolved 4 ()) (Resolved 6 ["demo"]) (Resolved 20 ())
    (fun _ _ => Resolved 100 sampleCallers)
    (Resolved 7900 "main") (fun _ _ _ => Resolved 300 (Some sampleFile))
    (Resolved 5 ()) (Resolved 1 ()) true.

(** The store is slow, 3.1 seconds before the fetches start, and the fetch
    of the second file never settles. *)
Definition slowStoreEnv : request_env :=
  mkEnv false (Resolved 4 ()) (Resolved 6 ["demo"]) (Resolved 1000 ())
    (fun _ _ => Resolved 1500 sampleCallers)
    (Resolved 600 "main")
    (fun i _ _ => match i with O => Resolved 300 (Some sampleFile) | _ => Pending end)
    (Resolved 5 ()) (Resolved 1 ()) true.

(** The graph exists but the connection for the query is refused at once. *)
Definition refusedConnectionEnv : request_env :=
  mkEnv false (Resolved 4 ()) (Resolved 6 ["demo"]) (Rejected 10)
    (fun _ _ => Resolved 100 sampleCallers)
    (Resolved 50 "main") (fun _ _ _ => Resolved 300 (Some sampleFile))
    (Resolved 5 ()) (Resolved 1 ()) true.

(** Outcomes of the build routine: the graph never appears; it appears at
    the third poll; the request hangs, is refused, fails; the graph is
    already there. *)
Definition budgetSpentEnv : build_env :=
  mkBuildEnv (fun _ => Resolved 5 []) (Resolved 2000 true) (Resolved 10 "queued") true.

Definition graphAppearsEnv : build_env :=
  mkBuildEnv (fun n => Resolved 5 (if (3 <=? n)%nat then ["demo"] else []))
    (Resolved 2000 true) (Resolved 10 "queued") true.

Definition requestHangsEnv : build_env :=
  mkBuildEnv (fun _ => Resolved 5 []) Pending (Resolved 10 "queued") true.

Definition requestRefusedEnv : build_env :=
  mkBuildEnv (fun _ => Resolved 5 []) (Resolved 200 false) (Resolved 10 "busy") true.

Definition requestFailsEnv : build_env :=
  mkBuildEnv (fun _ => Resolved 5 []) (Rejected 300) (Resolved 10 "") true.

Definition alreadyBuiltEnv : build_env :=
  mkBuildEnv (fun _ => Resolved 5 ["demo"]) (Resolved 2000 true) (Resolved 10 "") true.

Definition idleRuntime : runtime := mkRuntime emptyState [].

(** A file of a hundred lines. *)
Definition hundredLines : list string :=
  (fun i => "line " +:+ toString i) <$> seqZ 1 100.

(** ** Further notions for the properties of the code *)

(** The key an operation is about. *)
Definition op_key (op : registry_op) : string :=
  match op with
  | OpSetLock k _ _ => k
  | OpClearStale k _ => k
  | OpGetProgress k _ => k
  | OpIsInProgress k _ => k
  | OpBuild _ _ repoData _ => repoKeyOf repoData
  | OpTimer (CleanupLocks k) _ => k
  | OpRequest _ _ repoData _ _ _ => repoKeyOf repoData
  end.

(** The graph exists and the function has no caller. *)
Definition noCallersEnv : request_env :=
  mkEnv false (Resolved 4 ()) (Resolved 6 ["demo"]) (Resolved 20 ())
    (fun _ _ => Resolved 100 [])
    (Resolved 50 "main") (fun _ _ _ => Pending) (Resolved 5 ()) (Resolved 1 ()) true.

(** Nothing outside answers, and the service holds no client. *)
Definition silentEnv : request_env :=
  mkEnv false Pending Pending Pending (fun _ _ => Pending) Pending
    (fun _ _ _ => Pending) Pending Pending true.

(** The white space of the ASCII range (tab, line feed, vertical tab, form
    feed, carriage return, space), and the other characters of that range. *)
Definition asciiWhite (c : ascii) : bool :=
  let n := nat_of_ascii c in
  ((9 <=? n) && (n <=? 13) || (n =? 32))%nat.

Definition asciiVisible (c : ascii) : bool :=
  (nat_of_ascii c <? 128)%nat && negb (asciiWhite c).

Fixpoint allChars (P : ascii -> bool) (s : string) : bool :=
  match s with
  | EmptyString => true
  | String c s' => P c && allChars P s'
  end.

Fixpoint someChar (P : ascii -> bool) (s : string) : bool :=
  match s with
  | EmptyString => false
  | String c s' => P c || someChar P s'
  end.

(** The array of the rendered lines, before [join]. *)
Definition snippetLines (lines : list string) (line : Z) : list string :=
  let centerLine := line - 1 in
  let startLine := Z.max 0 (centerLine - CONTEXT_RADIUS) in
  let endLine := Z.min (Z.of_nat (length lines) - 1) (centerLine + CONTEXT_RADIUS) in
  imap (renderLine line startLine) (slice startLine (Some (endLine + 1)) lines).

(** ** The configuration read from the environment (graphTools.ts) *)

(** A JavaScript number as [parseInt] returns it: an integer that is a
    double, [NaN], or an infinity. *)
Inductive js_number : Type :=
| Num (n : Z)
| NaN
| Infinity (negative : bool).

(** The Number value of an integer: the integer itself below [2 ^ 53] in
    absolute value, and beyond that the nearest number with a significand
    of 53 bits, a tie going to the even significand; an infinity when the
    rounded value reaches [2 ^ 1024]. *)
Definition toDouble (n : Z) : js_number :=
  let a := Z.abs n in
  if a <? 2 ^ 53 then Num n
  else
    let e := Z.log2 a - 52 in
    let q := a / 2 ^ e in
    let r := a mod 2 ^ e in
    let half := 2 ^ (e - 1) in
    let q' :=
      if r <? half then q
      else if half <? r then q + 1
      else if Z.even q then q else q + 1 in
    if 2 ^ 1024 <=? q' * 2 ^ e then Infinity (n <? 0)
    else Num (Z.sgn n * (q' * 2 ^ e)).

(** The white space in front of the digits, which [parseInt] skips: the
    same characters as [trim] removes. *)
Fixpoint skipWhite (s : string) : string :=
  match s with
  | EmptyString => EmptyString
  | String c s1 =>
      let n := nat_of_ascii c in
      if ((9 <=? n) && (n <=? 13) || (n =? 32))%nat then skipWhite s1
      else
        match s1 with
        | EmptyString => s
        | String c1 s2 =>
            if ((n =? 194) && (nat_of_ascii c1 =? 160))%nat then skipWhite s2
            else
              match s2 with
              | EmptyString => s
              | String c2 s3 =>
                  if white3 n (nat_of_ascii c1) (nat_of_ascii c2) then skipWhite s3
                  else s
              end
        end
  end.

(** The value of a character as a digit of the radix, if it is one. *)
Definition digitValue (radix : Z) (c : ascii) : option Z :=
  let n := Z.of_nat (nat_of_ascii c) in
  let v :=
    if (48 <=? n) && (n <=? 57) then Some (n - 48)
    else if (97 <=? n) && (n <=? 122) then Some (n - 87)
    else if (65 <=? n) && (n <=? 90) then Some (n - 55)
    else None in
  match v with
  | Some d => if d <? radix then Some d else None
  | None => None
  end.

(** The value of the longest run of digits at the start of [s], after [acc]. *)
Fixpoint digitsFrom (radix acc : Z) (s : string) : Z :=
  match s with
  | EmptyString => acc
  | String c rest =>
      match digitValue radix c with
      | Some d => digitsFrom radix (acc * radix + d) rest
      | None => acc
      end
  end.

(** [parseInt (s)] without a radix: white space, a sign, [0x] or [0X] for
    radix 16, then the digits, whose value is rounded to a double; [NaN]
    without a digit. *)
Definition parseInt (s : string) : js_number :=
  let s1 := skipWhite s in
  let '(sign, s2) :=
    match s1 with
    | String "-" rest => (-1, rest)
    | String "+" rest => (1, rest)
    | _ => (1, s1)
    end in
  let '(radix, s3) :=
    match s2 with
    | String "0" (String "x" rest) => (16, rest)
    | String "0" (String "X" rest) => (16, rest)
    | _ => (10, s2)
    end in
  match s3 with
  | EmptyString => NaN
  | String c _ =>
      match digitValue radix c with
      | Some _ => toDouble (sign * digitsFrom radix 0 s3)
      | None => NaN
      end
  end.

(** [process.env]: the variables that are set. *)
Definition process_env : Type := string -> option string.

(** [value || fallback] on a string that may be undefined: the empty string
    is falsy too. *)
Definition orDefault (value : option string) (fallback : string) : string :=
  match value with
  | Some (String c s) => String c s
  | _ => fallback
  end.

Definition DEFAULT_IGNORE : list string :=
  [ "./.github"; "./build"; "./node_modules"; "./.git"; "./.vscode";
    "./__pycache__"; "./.pytest_cache" ].

(** The configuration as [getCodeGraphConfig] builds it; the port is what
    [parseInt] made of the variable. *)
Record EnvConfig : Type := mkEnvConfig
  { envServerUrl : string;
    envServerPort : js_number;
    envAuthToken : string;
    envIgnorePatterns : list string }.

Definition getCodeGraphConfig (env : process_env) : EnvConfig :=
  mkEnvConfig
    (orDefault (env "CODE_GRAPH_SERVER_URL") "http://127.0.0.1")
    (parseInt (orDefault (env "CODE_GRAPH_SERVER_PORT") "5000"))
    (orDefault (env "CODE_GRAPH_AUTH_TOKEN") "secret")
    (match env "CODE_GRAPH_IGNORE_PATTERNS" with
     | Some (String c s) => split_on "," (String c s)
     | _ => DEFAULT_IGNORE
     end).

(** A number inside a template literal; [toString] is the code's on the
    safe integers. *)
Definition numberString (n : js_number) : string :=
  match n with
  | Num z => toString z
  | NaN => "NaN"
  | Infinity false => "Infinity"
  | Infinity true => "-Infinity"
  end.

(** [getCodeGraphApiUrl], on the configuration read from the environment. *)
Definition apiUrlOf (config : EnvConfig) : string :=
  envServerUrl config +:+ ":" +:+ numberString (envServerPort config) +:+ "/analyze_repo".

(** * Properties *)

(** ** Strings *)

Section Strings.
Implicit Types (s t u : string).

Lemma append_cons (c : ascii) s t : String c s +:+ t = String c (s +:+ t).
Proof. reflexivity. Qed.

Lemma append_nil_l s : "" +:+ s = s.
Proof. reflexivity. Qed.

Lemma append_nil_r s : s +:+ "" = s.
Proof. induction s as [|c s IH]; [done|]. rewrite append_cons. by f_equal. Qed.

Lemma append_assoc s t u : (s +:+ t) +:+ u = s +:+ t +:+ u.
Proof. induction s as [|c s IH]; [done|]. rewrite !append_cons. by f_equal. Qed.

Lemma strip_prefix_Some p s s' : strip_prefix p s = Some s' <-> s = p +:+ s'.
Proof.
  revert s. induction p as [|a p IH]; intros s; simpl.
  - rewrite append_nil_l. split; congruence.
  - rewrite append_cons. destruct s as [|b s]; [split; discriminate|].
    destruct (Ascii.eqb_spec a b) as [->|Hne].
    + rewrite IH. split; [by intros -> | congruence].
    + split; [discriminate | congruence].
Qed.

End Strings.

Section SplitJoin.
Variable c : ascii.
Implicit Types (s : string) (xs ys : list string).

Lemma split_on_nonempty s : split_on c s <> [].
Proof.
  destruct s as [|a s]; simpl; [done|].
  destruct (Ascii.eqb a c); [done|]. by destruct (split_on c s).
Qed.

Lemma join_cons x xs :
  xs <> [] -> join (String c "") (x :: xs) = x +:+ String c (join (String c "") xs).
Proof. destruct xs; [done|]. intros _. reflexivity. Qed.

Lemma join_split s : join (String c "") (split_on c s) = s.
Proof.
  induction s as [|a s IH]; [done|]. cbn [split_on].
  pose proof (split_on_nonempty s) as Hne.
  destruct (Ascii.eqb_spec a c) as [->|Hac].
  - rewrite join_cons by done. by rewrite IH.
  - destruct (split_on c s) as [|x rest]; [done|].
    destruct rest as [|y rest].
    + simpl in IH. by rewrite <- IH.
    + rewrite join_cons by done. rewrite join_cons in IH by done.
      rewrite append_cons. by rewrite IH.
Qed.

Lemma split_on_segments s :
  Forall (fun seg => forall a b, seg <> a +:+ String c b) (split_on c s).
Proof.
  induction s as [|a s IH]; cbn [split_on].
  - constructor; [|constructor]. intros [|? ?] b; discriminate.
  - destruct (Ascii.eqb_spec a c) as [->|Hac].
    + constructor; [|done]. intros [|? ?] b; discriminate.
    + pose proof (split_on_nonempty s) as Hne.
      destruct (split_on c s) as [|x rest]; [done|].
      inversion IH as [|? ? Hx Hrest]; subst. constructor; [|done].
      intros [|a' u] b.
      * rewrite append_nil_l. congruence.
      * rewrite append_cons. intros [= -> ->]. by apply (Hx u b).
Qed.

Lemma join_app xs ys :
  xs <> [] -> ys <> [] ->
  join (String c "") (xs ++ ys)
  = join (String c "") xs +:+ String c (join (String c "") ys).
Proof.
  intros Hxs Hys. induction xs as [|x xs IH]; [done|].
  destruct xs as [|x' xs].
  - simpl app. by rewrite join_cons.
  - specialize (IH ltac:(done)).
    change ((x :: x' :: xs) ++ ys)%list with (x :: x' :: (xs ++ ys))%list.
    change ((x' :: xs) ++ ys)%list with (x' :: (xs ++ ys))%list in IH.
    rewrite join_cons by done. rewrite IH.
    rewrite (join_cons x (x' :: xs)) by done. by rewrite append_assoc, append_cons.
Qed.

Lemma length_split_on_sep s t :
  length (split_on c (s +:+ String c t))
  = (length (split_on c s) + length (split_on c t))%nat.
Proof.
  induction s as [|a s IH].
  - rewrite append_nil_l. cbn [split_on]. by rewrite Ascii.eqb_refl.
  - rewrite append_cons. cbn [split_on].
    destruct (Ascii.eqb a c); [simpl; by rewrite IH|].
    pose proof (split_on_nonempty s) as H1.
    pose proof (split_on_nonempty (s +:+ String c t)) as H2.
    destruct (split_on c s); [done|]. destruct (split_on c (s +:+ String c t)); [done|].
    simpl in *. lia.
Qed.





Lemma occurs_append s t : occurs c (s +:+ t) = occurs c s || occurs c t.
Proof.
  induction s as [|a s IH]; [done|]. rewrite append_cons. cbn [occurs].
  by rewrite IH, orb_assoc.
Qed.
End SplitJoin.

Lemma length_append (s t : string) :
  String.length (s +:+ t) = (String.length s + String.length t)%nat.
Proof.
  induction s as [|c s IH]; [done|]. rewrite append_cons. simpl. by rewrite IH.
Qed.

Lemma timestamp_key_ne (key : string) : timestamp_key key <> key.
Proof.
  intros H. apply (f_equal String.length) in H.
  unfold timestamp_key in H. rewrite length_append in H. simpl in H. lia.
Qed.

(** ** The registry *)

Section Registry.
Implicit Types (st : service_state) (key : string) (now : Z) (e : Entry.t).

Lemma minutes_between_lt now ts (m : Z) :
  minutes_between now ts < m <-> now - ts < m * 60000.
Proof.
  unfold minutes_between. change (1000 * 60) with 60000. split; intros H.
  - apply Z.nle_gt. intros Hle. apply Z.nle_gt in H. apply H.
    apply Z.div_le_lower_bound; lia.
  - apply Z.div_lt_upper_bound; lia.
Qed.

Lemma minutes_between_le now ts (m : Z) :
  m <= minutes_between now ts <-> m * 60000 <= now - ts.
Proof.
  pose proof (minutes_between_lt now ts m). lia.
Qed.

Lemma clearStaleLocks_registry key now st :
  registry (clearStaleLocks key now st) =
  match registry st !! key with
  | Some e =>
      if 10 <? minutes_between now (Entry.timestamp e)
      then delete key (registry st) else registry st
  | None => registry st
  end.
Proof.
  unfold clearStaleLocks.
  destruct (registry st !! key) as [e|]; simpl.
  - destruct (10 <? _); simpl;
      repeat (match goal with |- context [match ?x with _ => _ end] => destruct x end;
              simpl); reflexivity.
  - repeat (match goal with |- context [match ?x with _ => _ end] => destruct x end;
            simpl); reflexivity.
Qed.

Lemma getCreationProgress_absent key now st :
  registry st !! key = None ->
  getCreationProgress key now st = (st, not_in_progress).
Proof. intros H. unfold getCreationProgress. by rewrite H. Qed.

Lemma getCreationProgress_active key now st e :
  registry st !! key = Some e -> Entry.inProgress e = true ->
  minutes_between now (Entry.timestamp e) <= 20 ->
  getCreationProgress key now st =
  (st, Progress.mk true (minutes_between now (Entry.timestamp e))
         (if minutes_between now (Entry.timestamp e) <? 10
          then "5-10 minutes" else "Should complete soon")
         (if minutes_between now (Entry.timestamp e) <? 10
          then "Analyzing repository" else "Completing analysis")).
Proof.
  intros H Hp Hm. unfold getCreationProgress. rewrite H, Hp.
  destruct (Z.ltb_spec 20 (minutes_between now (Entry.timestamp e))); [lia|done].
Qed.

Lemma getCreationProgress_stale key now st e :
  registry st !! key = Some e -> Entry.inProgress e = true ->
  20 < minutes_between now (Entry.timestamp e) ->
  getCreationProgress key now st =
  (mkState (delete key (registry st)) (graphCreationLocks st), not_in_progress).
Proof.
  intros H Hp Hm. unfold getCreationProgress. rewrite H, Hp.
  destruct (Z.ltb_spec 20 (minutes_between now (Entry.timestamp e))); [done|lia].
Qed.

Lemma setCreationLock_registry_true key now st :
  registry (setCreationLock key true now st) =
  <[key := Entry.mk true (timestamp_or_now (registry st !! key) now)
             "Initializing analysis"]> (registry st).
Proof. reflexivity. Qed.

Lemma setCreationLock_registry_false key now st :
  registry (setCreationLock key false now st) = delete key (registry st).
Proof. reflexivity. Qed.
End Registry.

(** ** The branch for an absent graph, seen through the registry *)

Section GraphMissing.
Variables (config : CodeGraphConfig) (ownerName repoName functionName : string).
Local Abbreviation repoKey := (ownerName +:+ "/" +:+ repoName).

Lemma graphMissingBranch_idle now st :
  registry st !! repoKey = None ->
  graphMissingBranch config ownerName repoName functionName now st =
  mkBranch (msgStarting repoKey functionName)
    (setCreationLock repoKey true now (clearStaleLocks repoKey now st))
    [ mkRequest (getCodeGraphApiUrl config) (authToken config)
        (getGitHubRepoUrl ownerName repoName) (ignorePatterns config) ].
Proof.
  intros Hnone. unfold graphMissingBranch.
  assert (Hreg : registry (clearStaleLocks repoKey now st) !! repoKey = None).
  { rewrite clearStaleLocks_registry, Hnone. exact Hnone. }
  rewrite (getCreationProgress_absent _ _ _ Hreg). simpl.
  rewrite (getCreationProgress_absent _ _ _ Hreg). reflexivity.
Qed.

Lemma graphMissingBranch_active now st e :
  registry st !! repoKey = Some e -> Entry.inProgress e = true ->
  minutes_between now (Entry.timestamp e) < FORCE_CLEAR_MINUTES ->
  graphMissingBranch config ownerName repoName functionName now st =
  mkBranch
    (msgInProgress repoKey
       (Progress.mk true (minutes_between now (Entry.timestamp e))
          "5-10 minutes" "Analyzing repository")
       functionName)
    (clearStaleLocks repoKey now st) [].
Proof.
  intros Hsome Hp Hm. unfold FORCE_CLEAR_MINUTES in Hm.
  unfold graphMissingBranch.
  assert (Hreg : registry (clearStaleLocks repoKey now st) !! repoKey = Some e).
  { rewrite clearStaleLocks_registry, Hsome.
    destruct (Z.ltb_spec 10 (minutes_between now (Entry.timestamp e))); [lia|done]. }
  rewrite (getCreationProgress_active _ _ _ _ Hreg Hp) by lia. simpl.
  destruct (Z.leb_spec FORCE_CLEAR_MINUTES (minutes_between now (Entry.timestamp e)));
    [unfold FORCE_CLEAR_MINUTES in *; lia|].
  rewrite (getCreationProgress_active _ _ _ _ Hreg Hp) by lia. simpl.
  destruct (Z.ltb_spec (minutes_between now (Entry.timestamp e)) 10); [done|lia].
Qed.

Lemma graphMissingBranch_forced now st e :
  registry st !! repoKey = Some e -> Entry.inProgress e = true ->
  FORCE_CLEAR_MINUTES <= minutes_between now (Entry.timestamp e) ->
  text (graphMissingBranch config ownerName repoName functionName now st) =
    msgStarting repoKey functionName
  /\ registry (state (graphMissingBranch config ownerName repoName functionName now st))
     = <[repoKey := Entry.mk true now "Initializing analysis"]> (registry st)
  /\ sent (graphMissingBranch config ownerName repoName functionName now st)
     = [ mkRequest (getCodeGraphApiUrl config) (authToken config)
           (getGitHubRepoUrl ownerName repoName) (ignorePatterns config) ].
Proof.
  intros Hsome Hp Hm. unfold FORCE_CLEAR_MINUTES in Hm.
  unfold graphMissingBranch.
  destruct (Z.ltb_spec 10 (minutes_between now (Entry.timestamp e))) as [Hold|Hyoung].
  - assert (Hreg : registry (clearStaleLocks repoKey now st) !! repoKey = None).
    { rewrite clearStaleLocks_registry, Hsome.
      destruct (Z.ltb_spec 10 (minutes_between now (Entry.timestamp e))); [|lia].
      apply lookup_delete_eq. }
    rewrite (getCreationProgress_absent _ _ _ Hreg). simpl.
    rewrite (getCreationProgress_absent _ _ _ Hreg). simpl.
    split; [done|]. split; [|done].
    rewrite Hreg, clearStaleLocks_registry, Hsome.
    destruct (Z.ltb_spec 10 (minutes_between now (Entry.timestamp e))); [|lia].
    apply insert_delete_eq.
  - assert (Hreg : registry (clearStaleLocks repoKey now st) !! repoKey = Some e).
    { rewrite clearStaleLocks_registry, Hsome.
      destruct (Z.ltb_spec 10 (minutes_between now (Entry.timestamp e))); [lia|done]. }
    rewrite (getCreationProgress_active _ _ _ _ Hreg Hp) by lia. simpl.
    destruct (Z.leb_spec FORCE_CLEAR_MINUTES (minutes_between now (Entry.timestamp e)));
      [|unfold FORCE_CLEAR_MINUTES in *; lia].
    rewrite getCreationProgress_absent by (simpl; apply lookup_delete_eq).
    simpl. split; [done|]. split; [|done].
    rewrite lookup_delete_eq. simpl.
    rewrite delete_delete_eq, insert_delete_eq.
    rewrite clearStaleLocks_registry, Hsome.
    destruct (Z.ltb_spec 10 (minutes_between now (Entry.timestamp e))); [lia|done].
Qed.
End GraphMissing.

Lemma getCreationProgress_in_progress key now st :
  Progress.inProgress (getCreationProgress key now st).2 = true ->
  exists e, registry st !! key = Some e /\ Entry.inProgress e = true
            /\ minutes_between now (Entry.timestamp e) <= 20
            /\ Progress.elapsedMinutes (getCreationProgress key now st).2
               = minutes_between now (Entry.timestamp e).
Proof.
  unfold getCreationProgress.
  destruct (registry st !! key) as [e|]; [|discriminate].
  destruct (Entry.inProgress e) eqn:Hp; [|discriminate].
  destruct (Z.ltb_spec 20 (minutes_between now (Entry.timestamp e))); [discriminate|].
  intros _. exists e. simpl. repeat split; [done|lia].
Qed.


Lemma checkGraphExists_settles graphName listing :
  (exists d b, checkGraphExists graphName listing = Resolved d b)
  \/ checkGraphExists graphName listing = Pending.
Proof.
  unfold checkGraphExists. destruct listing; simpl; eauto.
Qed.

(** C1, as stated, fails: a build that started six minutes ago survives the
    eviction of stale locks and is still shown as in progress, yet the
    request clears its record, stamps a new one and asks for a new build. *)
Lemma graph_missing_active_build_is_restarted :
  let st := lockedAt 1000 in
  let now := 1000 + 6 * 60 * 1000 in
  let res := fetchUsageCodeExamples noGraphEnv sampleConfig sampleRepo "parse" 10 now st in
  checkGraphExists "demo" (storeListing noGraphEnv) = Resolved 10 false
  /\ Progress.inProgress
       (getCreationProgress "octo/demo" (now + 10)
          (clearStaleLocks "octo/demo" (now + 10) st)).2 = true
  /\ response res = Resolved 11 (msgStarting "octo/demo" "parse")
  /\ registry (finalState res) !! "octo/demo"
     = Some (Entry.mk true (now + 10) "Initializing analysis")
  /\ registry st !! "octo/demo" = Some (Entry.mk true 1000 "Initializing analysis")
  /\ length (triggered res) = 1%nat.
Proof. vm_compute. repeat split; reflexivity. Qed.

(** C1, as amended: when the graph is absent and, after the eviction of
    stale locks, the registry shows a build in progress, the request goes by
    the elapsed whole minutes of that view. Below five, it answers with the
    progress text built from the view, leaves the registry as it was (the
    state is the one the eviction left) and asks for no build. From five on,
    it clears the record before it branches: it answers with the starting
    text, stamps a new record with its own time and sends one build
    request. *)
Theorem graph_missing_build_active_reports_progress
    (env : request_env) (config : CodeGraphConfig) (repoData : RepoData)
    (o r f : string) (limit now d : Z) (st : service_state) :
  let key := o +:+ "/" +:+ r in
  let view := (getCreationProgress key (now + d) (clearStaleLocks key (now + d) st)).2 in
  let res := fetchUsageCodeExamples env config repoData f limit now st in
  owner repoData = Some o -> repo repoData = Some r ->
  allWhite o = false -> allWhite r = false ->
  checkGraphExists r (storeListing env) = Resolved d false ->
  Progress.inProgress view = true ->
  (Progress.elapsedMinutes view < 5 ->
   response res
   = andFinally (Resolved d (msgInProgress key view f))
       (disconnect env (clientAfterCheck env))
   /\ finalState res = clearStaleLocks key (now + d) st
   /\ registry (finalState res) = registry st
   /\ triggered res = [])
  /\ (5 <= Progress.elapsedMinutes view ->
      response res
      = andFinally (Resolved d (msgStarting key f))
          (disconnect env (clientAfterCheck env))
      /\ registry (finalState res)
         = <[key := Entry.mk true (now + d) "Initializing analysis"]> (registry st)
      /\ triggered res
         = [ mkRequest (getCodeGraphApiUrl config) (authToken config)
               (getGitHubRepoUrl o r) (ignorePatterns config) ]).
Proof.
  intros key view res Ho Hr Hwo Hwr Hcheck Hview.
  destruct (getCreationProgress_in_progress _ _ _ Hview) as (e & Hreg & Hp & Hm & Heq).
  fold view in Heq. rewrite Heq.
  assert (Hst : registry st !! key = Some e
                /\ registry (clearStaleLocks key (now + d) st) = registry st).
  { rewrite clearStaleLocks_registry in Hreg |- *.
    destruct (registry st !! key) as [e0|] eqn:H0; [|congruence].
    destruct (10 <? minutes_between (now + d) (Entry.timestamp e0)).
    - by rewrite lookup_delete_eq in Hreg.
    - split; [congruence | reflexivity]. }
  destruct Hst as [Hreg0 Hsame].
  assert (Hres : res
                 = let b := graphMissingBranch config o r f (now + d) st in
                   mkResult (andFinally (Resolved d (text b))
                               (disconnect env (clientAfterCheck env)))
                     (state b) (sent b)).
  { subst res. unfold fetchUsageCodeExamples.
    rewrite Ho, Hr. simpl. rewrite Hwo, Hwr. simpl. by rewrite Hcheck. }
  rewrite Hres. cbn zeta. cbn [response finalState triggered]. split.
  - intros Hel.
    assert (Hv : view = Progress.mk true (minutes_between (now + d) (Entry.timestamp e))
                          "5-10 minutes" "Analyzing repository").
    { subst view. rewrite (getCreationProgress_active _ _ _ _ Hreg Hp Hm). simpl.
      destruct (Z.ltb_spec (minutes_between (now + d) (Entry.timestamp e)) 10);
        [done|lia]. }
    rewrite (graphMissingBranch_active config o r f (now + d) st e Hreg0 Hp Hel).
    simpl. fold key. rewrite Hv, Hsame. done.
  - intros Hel.
    destruct (graphMissingBranch_forced config o r f (now + d) st e Hreg0 Hp Hel)
      as (Htext & Hstate & Hsent).
    fold key in Htext, Hstate. by rewrite Htext, Hstate, Hsent.
Qed.

Lemma graph_missing_build_active_reports_progress_witness :
  let st := lockedAt 1000 in
  let young := fetchUsageCodeExamples noGraphEnv sampleConfig sampleRepo "parse" 10
                 (1000 + 299989) st in
  let old := fetchUsageCodeExamples noGraphEnv sampleConfig sampleRepo "parse" 10
               (1000 + 299990) st in
  (registry (finalState young) = registry st /\ triggered young = [])
  /\ registry (finalState old)
     = <["octo/demo" := Entry.mk true (1000 + 300000) "Initializing analysis"]>
         (registry st).
Proof.
  pose proof (graph_missing_build_active_reports_progress noGraphEnv sampleConfig
                sampleRepo "octo" "demo" "parse" 10 (1000 + 299989) 10
                (lockedAt 1000)) as Hyoung.
  pose proof (graph_missing_build_active_reports_progress noGraphEnv sampleConfig
                sampleRepo "octo" "demo" "parse" 10 (1000 + 299990) 10
                (lockedAt 1000)) as Hold.
  cbv zeta in Hyoung, Hold.
  split.
  - destruct Hyoung as [Hyoung _]; [reflexivity..|].
    destruct Hyoung as (_ & _ & Hreg & Hsent); [vm_compute; reflexivity|].
    split; [exact Hreg | exact Hsent].
  - destruct Hold as [_ Hold]; [reflexivity..|].
    destruct Hold as (_ & Hreg & _); [vm_compute; discriminate|].
    exact Hreg.
Defined.

(** C3, as stated, fails: a record that is ten and a half minutes old is
    older than ten minutes, and [clearStaleLocks] keeps it. *)
Lemma clearStaleLocks_keeps_record_of_ten_and_a_half_minutes :
  let st := lockedAt 1000 in
  let now := 1000 + 630000 in
  (exists e, registry st !! "octo/demo" = Some e
             /\ 10 * 60 * 1000 < now - Entry.timestamp e)
  /\ registry (clearStaleLocks "octo/demo" now st) = registry st.
Proof.
  split.
  - eexists. split; [reflexivity | vm_compute; reflexivity].
  - rewrite clearStaleLocks_registry. reflexivity.
Qed.

(** C3, as amended: [clearStaleLocks key] leaves the registry as it is
    while the age of the record is below eleven minutes (so for every record
    younger than ten minutes), and deletes the record, and nothing else, from
    eleven minutes on: the age is compared in whole minutes. *)
Theorem clearStaleLocks_threshold (key : string) (now : Z) (st : service_state)
    (e : Entry.t) :
  registry st !! key = Some e ->
  (now - Entry.timestamp e < 11 * 60 * 1000 ->
   registry (clearStaleLocks key now st) = registry st)
  /\ (11 * 60 * 1000 <= now - Entry.timestamp e ->
      registry (clearStaleLocks key now st) = delete key (registry st)
      /\ registry (clearStaleLocks key now st) !! key = None).
Proof.
  intros Hreg. rewrite clearStaleLocks_registry, Hreg.
  destruct (Z.ltb_spec 10 (minutes_between now (Entry.timestamp e))) as [H|H].
  - apply Z.le_succ_l, minutes_between_le in H. split; [lia|].
    intros _. split; [reflexivity | apply lookup_delete_eq].
  - apply Z.lt_succ_r, minutes_between_lt in H. split; [reflexivity | lia].
Qed.

Lemma clearStaleLocks_threshold_witness :
  registry (lockedAt 1000) !! "octo/demo"
    = Some (Entry.mk true 1000 "Initializing analysis")
  /\ registry (clearStaleLocks "octo/demo" (1000 + 599999) (lockedAt 1000))
     = registry (lockedAt 1000)
  /\ registry (clearStaleLocks "octo/demo" (1000 + 660000) (lockedAt 1000))
       !! "octo/demo" = None.
Proof.
  split; [reflexivity|]. split.
  - apply (clearStaleLocks_threshold "octo/demo" (1000 + 599999) (lockedAt 1000)
             (Entry.mk true 1000 "Initializing analysis")); [reflexivity | simpl; lia].
  - apply (clearStaleLocks_threshold "octo/demo" (1000 + 660000) (lockedAt 1000)
             (Entry.mk true 1000 "Initializing analysis")); [reflexivity | simpl; lia].
Defined.

(** C4, as stated, fails: a record that is twenty and a half minutes old
    exceeds the twenty-minute threshold, and [getCreationProgress] keeps it
    and reports it as in progress. *)
Lemma getCreationProgress_keeps_record_of_twenty_and_a_half_minutes :
  let st := lockedAt 1000 in
  let now := 1000 + 1230000 in
  (exists e, registry st !! "octo/demo" = Some e
             /\ 20 * 60 * 1000 < now - Entry.timestamp e)
  /\ getCreationProgress "octo/demo" now st
     = (st, Progress.mk true 20 "Should complete soon" "Completing analysis").
Proof.
  split.
  - eexists. split; [reflexivity | vm_compute; reflexivity].
  - reflexivity.
Qed.

(** C4, as amended: when the record of a key is in progress and its age is
    twenty-one minutes or more (its age in whole minutes exceeds twenty),
    [getCreationProgress key] deletes the record and returns the view
    "not in progress, Complete"; a request for the same key that then finds
    the graph absent starts a new build: it answers with the starting text,
    sends one build request and stamps a new record with its own time. *)
Theorem getCreationProgress_evicts_stale (config : CodeGraphConfig)
    (o r f : string) (now now' : Z) (st : service_state) (e : Entry.t) :
  let key := o +:+ "/" +:+ r in
  let st' := (getCreationProgress key now st).1 in
  let res := graphMissingBranch config o r f now' st' in
  registry st !! key = Some e -> Entry.inProgress e = true ->
  21 * 60 * 1000 <= now - Entry.timestamp e ->
  (getCreationProgress key now st).2 = Progress.mk false 0 "N/A" "Complete"
  /\ registry st' = delete key (registry st)
  /\ registry st' !! key = None
  /\ text res = msgStarting key f
  /\ sent res = [ mkRequest (getCodeGraphApiUrl config) (authToken config)
                    (getGitHubRepoUrl o r) (ignorePatterns config) ]
  /\ registry (state res) !! key = Some (Entry.mk true now' "Initializing analysis").
Proof.
  intros key st' res Hreg Hp Hage.
  assert (Hm : 20 < minutes_between now (Entry.timestamp e)).
  { apply Z.le_succ_l, minutes_between_le. lia. }
  subst res st'. rewrite (getCreationProgress_stale _ _ _ _ Hreg Hp Hm). simpl.
  assert (Hnone : delete key (registry st) !! key = None) by apply lookup_delete_eq.
  rewrite graphMissingBranch_idle by exact Hnone. simpl.
  repeat split; try done.
  fold key. rewrite clearStaleLocks_registry. simpl. rewrite Hnone. simpl.
  rewrite Hnone. apply lookup_insert_eq.
Qed.

Lemma getCreationProgress_evicts_stale_witness :
  let st := lockedAt 1000 in
  let st' := (getCreationProgress "octo/demo" (1000 + 21 * 60 * 1000) st).1 in
  registry st !! "octo/demo" = Some (Entry.mk true 1000 "Initializing analysis")
  /\ registry st' !! "octo/demo" = None
  /\ text (graphMissingBranch sampleConfig "octo" "demo" "parse" 2000000 st')
     = msgStarting "octo/demo" "parse".
Proof.
  pose proof (getCreationProgress_evicts_stale sampleConfig "octo" "demo" "parse"
                (1000 + 21 * 60 * 1000) 2000000 (lockedAt 1000)
                (Entry.mk true 1000 "Initializing analysis")) as H.
  simpl in H.
  destruct H as (_ & _ & Hnone & Htext & _); [reflexivity | reflexivity | lia |].
  split; [reflexivity|]. split; [exact Hnone | exact Htext].
Defined.

(** C5: on a key without a record, [setCreationLock key true] stamps the
    time of the call; a second [setCreationLock key true], with no
    [setCreationLock key false] in between, keeps that time, and changes
    nothing at all. The progress read afterwards is therefore the one read
    after the first call alone, at any time; while the record is read as in
    progress (until 21 minutes after the first call) the elapsed minutes are
    the whole minutes since the first call, and not 0 once a minute has
    passed. The clock reading of the first call is a number of milliseconds
    since the epoch and is taken to be other than 0, the one value that [||]
    in the code treats as no timestamp. *)
Theorem setCreationLock_twice_keeps_startedAt (key : string) (t1 t2 t3 : Z)
    (st : service_state) :
  let st1 := setCreationLock key true t1 st in
  let st2 := setCreationLock key true t2 st1 in
  registry st !! key = None -> t1 <> 0 ->
  registry st1 !! key = Some (Entry.mk true t1 "Initializing analysis")
  /\ registry st2 !! key = Some (Entry.mk true t1 "Initializing analysis")
  /\ st2 = st1
  /\ getCreationProgress key t3 st2 = getCreationProgress key t3 st1
  /\ (t3 - t1 < 21 * 60 * 1000 ->
      Progress.inProgress (getCreationProgress key t3 st2).2 = true
      /\ Progress.elapsedMinutes (getCreationProgress key t3 st2).2
         = (t3 - t1) / 60000
      /\ (60000 <= t3 - t1 ->
          1 <= Progress.elapsedMinutes (getCreationProgress key t3 st2).2)).
Proof.
  intros st1 st2 Hnone Ht1.
  assert (H1 : registry st1 !! key = Some (Entry.mk true t1 "Initializing analysis")).
  { subst st1. rewrite setCreationLock_registry_true, Hnone. apply lookup_insert_eq. }
  assert (Hsame : st2 = st1).
  { subst st2. unfold setCreationLock at 1. rewrite H1. cbn [timestamp_or_now Entry.timestamp].
    destruct (Z.eqb_spec t1 0); [contradiction|].
    assert (Hkey : graphCreationLocks st1 !! key = Some (LBool true)).
    { subst st1. unfold setCreationLock. cbn [graphCreationLocks].
      destruct (true && _); [|apply lookup_insert_eq].
      rewrite lookup_insert_ne by apply timestamp_key_ne. apply lookup_insert_eq. }
    assert (Hts : is_Some (graphCreationLocks st1 !! timestamp_key key)).
    { subst st1. unfold setCreationLock. cbn [graphCreationLocks andb].
      destruct (bool_decide_reflect
                  (is_Some (<[key:=LBool true]> (graphCreationLocks st)
                              !! timestamp_key key))) as [Hin|Hout];
        cbn [negb]; [exact Hin|].
      rewrite lookup_insert_eq. by eexists. }
    rewrite (insert_id (registry st1) key _ H1).
    rewrite (insert_id (graphCreationLocks st1) key _ Hkey).
    rewrite bool_decide_eq_true_2 by exact Hts. cbn [andb negb].
    by destruct st1. }
  split; [exact H1|]. split; [by rewrite Hsame|]. split; [exact Hsame|].
  split; [by rewrite Hsame|].
  intros Hage. rewrite Hsame.
  assert (Hm : minutes_between t3 t1 <= 20).
  { apply Z.lt_succ_r, minutes_between_lt. lia. }
  rewrite (getCreationProgress_active _ _ _ _ H1 eq_refl Hm).
  cbn [snd Progress.inProgress Progress.elapsedMinutes Entry.timestamp].
  split; [done|]. split; [reflexivity|].
  intros Hminute. apply (minutes_between_le t3 t1 1). lia.
Qed.

Lemma setCreationLock_twice_keeps_startedAt_witness :
  let st2 := setCreationLock "octo/demo" true (1000 + 7 * 60000)
               (setCreationLock "octo/demo" true 1000 emptyState) in
  registry emptyState !! "octo/demo" = None
  /\ registry st2 !! "octo/demo" = Some (Entry.mk true 1000 "Initializing analysis")
  /\ Progress.elapsedMinutes
       (getCreationProgress "octo/demo" (1000 + 12 * 60000) st2).2 = 12.
Proof.
  destruct (setCreationLock_twice_keeps_startedAt "octo/demo" 1000 (1000 + 7 * 60000)
              (1000 + 12 * 60000) emptyState)
    as (_ & Hkept & _ & _ & Hread); [reflexivity | discriminate |].
  split; [reflexivity|]. split; [exact Hkept|].
  destruct Hread as (_ & Hminutes & _); [lia|].
  rewrite Hminutes. reflexivity.
Defined.

(** The hypothesis on the clock is needed: a record stamped 0 is stamped
    again by the next call. *)
Example setCreationLock_stamp_zero :
  registry (setCreationLock "octo/demo" true 3600000
              (setCreationLock "octo/demo" true 0 emptyState)) !! "octo/demo"
  = Some (Entry.mk true 3600000 "Initializing analysis").
Proof. reflexivity. Qed.

(** ** The invariant of the registry *)

Section Invariant.
Implicit Types (st : service_state) (key : string) (now : Z).

Lemma registry_ok_same st st' :
  registry st' = registry st -> registry_ok st -> registry_ok st'.
Proof. unfold registry_ok. intros ->. auto. Qed.

Lemma registry_ok_delete st st' key :
  registry st' = delete key (registry st) -> registry_ok st -> registry_ok st'.
Proof.
  unfold registry_ok. intros -> Hok k e Hk.
  apply lookup_delete_Some in Hk as [_ Hk]. eauto.
Qed.

Lemma registry_ok_insert st st' key ts ph :
  registry st' = <[key := Entry.mk true ts ph]> (registry st) ->
  registry_ok st -> registry_ok st'.
Proof.
  unfold registry_ok. intros -> Hok k e Hk.
  apply lookup_insert_Some in Hk as [[_ <-]|[_ Hk]]; eauto.
Qed.

Lemma registry_ok_empty : registry_ok emptyState.
Proof. intros k e Hk. simpl in Hk. by rewrite lookup_empty in Hk. Qed.

Lemma setCreationLock_ok key status now st :
  registry_ok st -> registry_ok (setCreationLock key status now st).
Proof.
  destruct status.
  - apply registry_ok_insert with (key := key)
      (ts := timestamp_or_now (registry st !! key) now) (ph := "Initializing analysis").
    reflexivity.
  - apply registry_ok_delete with (key := key). reflexivity.
Qed.

Lemma clearStaleLocks_ok key now st :
  registry_ok st -> registry_ok (clearStaleLocks key now st).
Proof.
  pose proof (clearStaleLocks_registry key now st) as H.
  destruct (registry st !! key) as [e|].
  - destruct (10 <? _).
    + by apply registry_ok_delete with (key := key).
    + by apply registry_ok_same.
  - by apply registry_ok_same.
Qed.

Lemma getCreationProgress_ok key now st :
  registry_ok st -> registry_ok (getCreationProgress key now st).1.
Proof.
  unfold getCreationProgress.
  destruct (registry st !! key) as [e|]; [|done].
  destruct (Entry.inProgress e); [|done].
  destruct (20 <? _); [|done].
  by apply registry_ok_delete with (key := key).
Qed.

Lemma isCreationInProgress_ok key now st :
  registry_ok st -> registry_ok (isCreationInProgress key now st).1.
Proof.
  unfold isCreationInProgress.
  destruct (registry st !! key) as [e|]; [|done].
  destruct (Entry.inProgress e); [|done].
  destruct (20 <? _); [|done].
  by apply registry_ok_delete with (key := key).
Qed.

Lemma fireTimer_ok a now st : registry_ok st -> registry_ok (fireTimer a now st).
Proof.
  destruct a as [key]. apply registry_ok_delete with (key := key). reflexivity.
Qed.

Lemma startBackgroundCreation_ok env config repoData now rt :
  registry_ok (service rt) ->
  registry_ok (service (after (startBackgroundCreation env config repoData now rt))).
Proof.
  intros Hok. unfold startBackgroundCreation. simpl.
  eapply registry_ok_same;
    [|apply (setCreationLock_ok (repoKeyOf repoData) true now _ Hok)].
  reflexivity.
Qed.

Lemma graphMissingBranch_ok config o r f now st :
  registry_ok st -> registry_ok (state (graphMissingBranch config o r f now st)).
Proof.
  intros Hok. unfold graphMissingBranch.
  pose proof (clearStaleLocks_ok (o +:+ "/" +:+ r) now st Hok) as H1.
  pose proof (getCreationProgress_ok (o +:+ "/" +:+ r) now _ H1) as H2.
  destruct (getCreationProgress _ now (clearStaleLocks _ now st)) as [st2 progress].
  simpl in H2.
  set (st3 := if _ && _ then _ else st2).
  assert (H3 : registry_ok st3).
  { subst st3. destruct (_ && _); [|done].
    eapply registry_ok_delete; [reflexivity|].
    by apply setCreationLock_ok. }
  pose proof (getCreationProgress_ok (o +:+ "/" +:+ r) now _ H3) as H4.
  destruct (getCreationProgress _ now st3) as [st4 finalProgress]. simpl in H4.
  destruct (Progress.inProgress finalProgress); simpl; [done|].
  by apply setCreationLock_ok.
Qed.

Lemma graphExistsBranch_ok env key f limit now st :
  registry_ok st -> registry_ok (graphExistsBranch env key f limit now st).1.
Proof.
  intros Hok. unfold graphExistsBranch, lookupPipeline.
  destruct (connection env) as [d []| |]; simpl; try done.
  unfold graphOperation.
  destruct (functionInfo env f limit) as [d' [|c cs]| |]; simpl; try done.
  pose proof (getCreationProgress_ok key (now + d + d') st Hok) as H.
  destruct (getCreationProgress key (now + d + d') st); done.
Qed.

Lemma fetchUsageCodeExamples_ok env config repoData f limit now st :
  registry_ok st ->
  registry_ok (finalState (fetchUsageCodeExamples env config repoData f limit now st)).
Proof.
  intros Hok. unfold fetchUsageCodeExamples.
  destruct (isBlank _ || isBlank _); [done|].
  destruct (checkGraphExists _ _) as [d [|]| |]; simpl; try done.
  - pose proof (graphExistsBranch_ok env
                  (templateString (owner repoData) +:+ "/" +:+ templateString (repo repoData))
                  f limit (now + d) st Hok) as H.
    destruct (graphExistsBranch _ _ _ _ _ _); done.
  - by apply graphMissingBranch_ok.
Qed.
End Invariant.

Lemma apply_op_ok (op : registry_op) (st : service_state) :
  registry_ok st -> registry_ok (apply_op op st).
Proof.
  intros Hok. destruct op; simpl.
  - by apply setCreationLock_ok.
  - by apply clearStaleLocks_ok.
  - by apply getCreationProgress_ok.
  - by apply isCreationInProgress_ok.
  - by apply (startBackgroundCreation_ok env config repoData now (mkRuntime st [])).
  - by apply fireTimer_ok.
  - by apply fetchUsageCodeExamples_ok.
Qed.

(** From the empty registry, every sequence of operations keeps the
    invariant. *)
Lemma registry_ok_reachable (ops : list registry_op) :
  registry_ok (foldl (fun st op => apply_op op st) emptyState ops).
Proof.
  induction ops as [|op ops IH] using rev_ind; simpl.
  - exact registry_ok_empty.
  - rewrite foldl_app. simpl. by apply apply_op_ok.
Qed.

(** C9: every operation on the registry (setting and clearing a lock, the
    eviction of stale locks, the reading of the progress, the build routine
    and its cleanup timer, and a whole request) keeps the invariant that
    every record present is in progress; the registry holds at most one
    record for a key, so being idle is the absence of the record. *)
Theorem registry_invariant_preserved (op : registry_op) (st : service_state) :
  registry_ok st ->
  registry_ok (apply_op op st)
  /\ NoDup (map_to_list (registry (apply_op op st))).*1
  /\ (forall key e1 e2,
        (key, e1) ∈ map_to_list (registry (apply_op op st)) ->
        (key, e2) ∈ map_to_list (registry (apply_op op st)) -> e1 = e2).
Proof.
  intros Hok. split; [|split].
  - by apply apply_op_ok.
  - apply NoDup_fst_map_to_list.
  - intros key e1 e2 H1%elem_of_map_to_list H2%elem_of_map_to_list. congruence.
Qed.

Lemma registry_invariant_preserved_witness :
  registry_ok emptyState
  /\ registry_ok (apply_op (OpSetLock "octo/demo" true 1000) emptyState).
Proof.
  split; [exact registry_ok_empty|].
  apply (registry_invariant_preserved (OpSetLock "octo/demo" true 1000) emptyState).
  exact registry_ok_empty.
Defined.

(** ** The supervised background build *)

Section Promises.
Context {A : Type}.

Lemma raceTimeout_settles (limit : Z) (timerFirst : bool) (p : settle A) :
  raceTimeout limit timerFirst p <> Pending.
Proof.
  unfold raceTimeout. destruct p; simpl; try discriminate;
    destruct (_ || _); discriminate.
Qed.

Lemma orElse_not_rejected (p : settle A) (v : A) (d : Z) : orElse p v <> Rejected d.
Proof. destruct p; discriminate. Qed.

Lemma orElse_pending (p : settle A) (v : A) : orElse p v = Pending -> p = Pending.
Proof. destruct p; simpl; congruence. Qed.

Lemma later_pending (d : Z) (p : settle A) : later d p = Pending -> p = Pending.
Proof. destruct p; simpl; congruence. Qed.
End Promises.

Lemma andThen_pending {A B : Type} (p : settle A) (k : A -> settle B) :
  andThen p k = Pending ->
  p = Pending \/ exists d v, p = Resolved d v /\ k v = Pending.
Proof.
  destruct p as [d v| |]; simpl; intros H; [|discriminate|by left].
  right. exists d, v. split; [done|]. by apply later_pending in H.
Qed.

Section Build.
Variables (env : build_env) (graphName : option string).
Hypothesis listings_settle : forall n, listingAt env n <> Pending.

Lemma graphListed_settles (n : nat) :
  exists d b, graphListed graphName (listingAt env n) = Resolved d b.
Proof.
  pose proof (listings_settle n) as H. unfold graphListed, checkGraphExists.
  destruct graphName; destruct (listingAt env n); simpl; eauto; contradiction.
Qed.

Lemma pollGraph_settles (remaining attempts : nat) :
  pollGraph graphName (listingAt env) remaining attempts <> Pending.
Proof.
  revert attempts. induction remaining as [|r IH]; intros attempts; simpl.
  - discriminate.
  - destruct (graphListed_settles (S attempts)) as (d & b & ->). simpl.
    destruct b; simpl; [discriminate|].
    intros H%later_pending%later_pending. by apply IH in H.
Qed.

Lemma buildAttempt_settles : buildAttempt env graphName <> Pending.
Proof.
  unfold buildAttempt.
  pose proof (pollGraph_settles MAX_ATTEMPTS 0) as Hpoll.
  set (polling := pollGraph graphName (listingAt env) MAX_ATTEMPTS 0) in *.
  clearbody polling.
  destruct (graphListed_settles 0) as (d & b & ->). simpl.
  destruct b; simpl; [discriminate|].
  intros H%later_pending%andThen_pending.
  destruct H as [H|(d' & ok & _ & H)].
  - by apply raceTimeout_settles in H.
  - destruct ok; [contradiction | discriminate].
Qed.
End Build.

Lemma fireDue_single (t due : Z) (a : timer_action) (st : service_state) :
  fireDue t [(due, a)] st
  = if due <=? t then (fireTimer a due st, []) else (st, [(due, a)]).
Proof. simpl. by destruct (due <=? t). Qed.

(** C8: whatever the routine meets (the graph found, the request answered,
    refused, failed or timed out, the polling budget spent), it leaves the
    lock it set in the registry when it ends, and clears nothing itself: it
    arms one timer, due two minutes after its end, whose callback clears the
    lock. The routine ends whenever the store answers its listings, and never
    with an error. With no other timer armed, the service is untouched at any
    time before the timer is due and the record is gone once it is. *)
Theorem background_build_defers_cleanup (env : build_env) (config : CodeGraphConfig)
    (repoData : RepoData) (now : Z) (rt : runtime) :
  let run := startBackgroundCreation env config repoData now rt in
  let key := repoKeyOf repoData in
  registry (service (after run)) !! key
    = Some (Entry.mk true (timestamp_or_now (registry (service rt) !! key) now)
              "Initializing analysis")
  /\ ((forall n, listingAt env n <> Pending) -> exists d, finished run = Resolved d tt)
  /\ (forall d, finished run <> Rejected d)
  /\ (forall d, finished run = Resolved d tt ->
        timers (after run)
          = armTimer (now + d + 2 * 60 * 1000) (CleanupLocks key) (timers rt)
        /\ (timers rt = [] ->
            (forall t, t < now + d + 2 * 60 * 1000 ->
               advanceTo t (after run) = after run)
            /\ (forall t, now + d + 2 * 60 * 1000 <= t ->
                  registry (service (advanceTo t (after run))) !! key = None
                  /\ timers (advanceTo t (after run)) = []))).
Proof.
  intros run key. subst run. unfold startBackgroundCreation. fold key. simpl.
  split; [apply lookup_insert_eq|]. split; [|split].
  - intros Hsettle.
    pose proof (buildAttempt_settles env (repo repoData) Hsettle) as Hb.
    destruct (buildAttempt env (repo repoData)) as [d []| |]; simpl; eauto.
    contradiction.
  - intros d. apply orElse_not_rejected.
  - intros d Hd. rewrite Hd. simpl. split; [reflexivity|].
    intros ->. simpl. unfold advanceTo. simpl.
    change (now + d + CLEANUP_DELAY) with (now + d + 2 * 60 * 1000).
    split; intros t Ht.
    + destruct (Z.leb_spec (now + d + 2 * 60 * 1000) t); [lia|reflexivity].
    + destruct (Z.leb_spec (now + d + 2 * 60 * 1000) t); [|lia]. simpl.
      split; [apply lookup_delete_eq | reflexivity].
Qed.

(** The four outcomes of the routine, and the graph found before or while
    polling: the routine ends each time. *)
Example background_build_outcomes :
  finished (startBackgroundCreation budgetSpentEnv sampleConfig sampleRepo 1000 idleRuntime)
    = Resolved 452090 ()
  /\ finished (startBackgroundCreation graphAppearsEnv sampleConfig sampleRepo 1000 idleRuntime)
     = Resolved 92030 ()
  /\ finished (startBackgroundCreation requestHangsEnv sampleConfig sampleRepo 1000 idleRuntime)
     = Resolved 600005 ()
  /\ finished (startBackgroundCreation requestRefusedEnv sampleConfig sampleRepo 1000 idleRuntime)
     = Resolved 215 ()
  /\ finished (startBackgroundCreation requestFailsEnv sampleConfig sampleRepo 1000 idleRuntime)
     = Resolved 305 ()
  /\ finished (startBackgroundCreation alreadyBuiltEnv sampleConfig sampleRepo 1000 idleRuntime)
     = Resolved 5 ().
Proof. repeat split; vm_compute; reflexivity. Qed.

Lemma background_build_defers_cleanup_witness :
  let run := startBackgroundCreation budgetSpentEnv sampleConfig sampleRepo 1000 idleRuntime in
  finished run = Resolved 452090 ()
  /\ timers (after run) = [(1000 + 452090 + 120000, CleanupLocks "octo/demo")]
  /\ advanceTo (1000 + 452090 + 119999) (after run) = after run
  /\ registry (service (advanceTo (1000 + 452090 + 120000) (after run))) !! "octo/demo"
     = None.
Proof.
  pose proof (background_build_defers_cleanup budgetSpentEnv sampleConfig sampleRepo
                1000 idleRuntime) as H.
  simpl in H. destruct H as (_ & _ & _ & H).
  assert (Hend : finished (startBackgroundCreation budgetSpentEnv sampleConfig
                             sampleRepo 1000 idleRuntime) = Resolved 452090 ())
    by (vm_compute; reflexivity).
  destruct (H 452090 Hend) as (Htimers & Hidle).
  destruct (Hidle eq_refl) as (Hbefore & Hafter).
  split; [exact Hend|]. split; [exact Htimers|]. split.
  - apply Hbefore. lia.
  - apply Hafter. lia.
Defined.

(** ** Snippet rendering *)

Section Snippet.
Implicit Types (lines : list string) (target : Z).

(** A slice between two positions of the array is the stretch between
    them. *)
Lemma slice_within {A : Type} (xs : list A) (lo hi : Z) :
  0 <= lo -> 0 <= hi <= Z.of_nat (length xs) ->
  slice lo (Some hi) xs = take (Z.to_nat (hi - lo)) (drop (Z.to_nat lo) xs).
Proof.
  intros Hlo Hhi. unfold slice.
  destruct (Z.ltb_spec lo 0); [lia|]. destruct (Z.ltb_spec hi 0); [lia|].
  rewrite (Z.min_l hi) by lia.
  destruct (Z.le_gt_cases lo (Z.of_nat (length xs))) as [Hle|Hgt].
  - by rewrite Z.min_l by lia.
  - rewrite Z.min_r by lia.
    rewrite !drop_ge by lia.
    by rewrite !take_nil.
Qed.



End Snippet.

Lemma digit_char_not_LF (d : Z) :
  0 <= d < 10 -> Ascii.eqb (digit_char d) (ascii_of_nat 10) = false.
Proof.
  intros Hd.
  assert (Hcases : d = 0 \/ d = 1 \/ d = 2 \/ d = 3 \/ d = 4 \/ d = 5 \/ d = 6 \/ d = 7
                   \/ d = 8 \/ d = 9) by lia.
  repeat (destruct Hcases as [->|Hcases]; [reflexivity|]). by subst.
Qed.

Lemma occurs_digits_fuel (fuel : nat) (n : Z) (acc : string) :
  occurs (ascii_of_nat 10) (digits_fuel fuel n acc) = occurs (ascii_of_nat 10) acc.
Proof.
  revert n acc. induction fuel as [|fuel IH]; intros n acc; cbn [digits_fuel]; [done|].
  assert (Hmod : 0 <= n mod 10 < 10) by (apply Z.mod_pos_bound; lia).
  destruct (n <? 10); [|rewrite IH]; cbn [occurs]; by rewrite digit_char_not_LF.
Qed.

Lemma occurs_toString (n : Z) : occurs (ascii_of_nat 10) (toString n) = false.
Proof.
  destruct n as [|p|p]; [done| |]; unfold toString.
  - apply occurs_digits_fuel.
  - rewrite occurs_append. cbn [occurs orb Ascii.eqb]. apply occurs_digits_fuel.
Qed.

Lemma occurs_spaces (n : nat) : occurs (ascii_of_nat 10) (spaces n) = false.
Proof. induction n as [|n IH]; [done|]. exact IH. Qed.

(** A line of the window holds no line feed when the lines of the file hold
    none. *)
Lemma occurs_windowLine (lines : list string) (target i : Z) :
  Forall (fun x => occurs (ascii_of_nat 10) x = false) lines ->
  occurs (ascii_of_nat 10) (windowLine lines target i) = false.
Proof.
  intros Hlines. unfold windowLine, padStart.
  rewrite !occurs_append, occurs_spaces, occurs_toString.
  assert (Hnth : occurs (ascii_of_nat 10) (nth (Z.to_nat i) lines "") = false).
  { destruct (nth_lookup_or_length lines (Z.to_nat i) "") as [Hn|Hn].
    - by apply (Forall_lookup_1 _ _ _ _ Hlines Hn).
    - by rewrite nth_overflow by lia. }
  rewrite Hnth. by destruct (i + 1 =? target).
Qed.






(** The cases of the specification on a file of a hundred lines: lines 45
    to 55 around line 50 with one line marked, the window cut at the first
    and at the last line. *)
Example window_around_line_50 :
  renderLines hundredLines 50
  = "     45: line 45" +:+ LF +:+ "     46: line 46" +:+ LF +:+ "     47: line 47"
    +:+ LF +:+ "     48: line 48" +:+ LF +:+ "     49: line 49" +:+ LF
    +:+ ">>>  50: line 50" +:+ LF +:+ "     51: line 51" +:+ LF
    +:+ "     52: line 52" +:+ LF +:+ "     53: line 53" +:+ LF
    +:+ "     54: line 54" +:+ LF +:+ "     55: line 55".
Proof. vm_compute. reflexivity. Qed.

Example window_at_first_line :
  renderLines hundredLines 1
  = ">>>   1: line 1" +:+ LF +:+ "      2: line 2" +:+ LF +:+ "      3: line 3"
    +:+ LF +:+ "      4: line 4" +:+ LF +:+ "      5: line 5" +:+ LF
    +:+ "      6: line 6".
Proof. vm_compute. reflexivity. Qed.

Example window_at_last_line :
  renderLines hundredLines 100
  = "     95: line 95" +:+ LF +:+ "     96: line 96" +:+ LF +:+ "     97: line 97"
    +:+ LF +:+ "     98: line 98" +:+ LF +:+ "     99: line 99" +:+ LF
    +:+ ">>> 100: line 100".
Proof. vm_compute. reflexivity. Qed.

(** ** The relative path *)

Section Matching.
Context {R : Type}.
Implicit Types (k : string -> option R) (s : string) (r : R).

Lemma star_sound cls k s r :
  star cls k s = Some r -> exists a b, s = a +:+ b /\ k b = Some r.
Proof.
  induction s as [|c s IH]; simpl.
  - intros H. by exists "", "".
  - destruct (cls (String c s)).
    + destruct (star cls k s) as [r'|] eqn:Hs.
      * intros [= <-]. destruct (IH eq_refl) as (a & b & -> & Hk).
        by exists (String c a), b.
      * intros H. by exists "", (String c s).
    + intros H. by exists "", (String c s).
Qed.


Lemma star_not_slash_sound k s r :
  star not_slash k s = Some r ->
  exists seg b, s = seg +:+ b /\ noSlash seg = true /\ k b = Some r.
Proof.
  induction s as [|c s IH]; simpl.
  - intros H. by exists "", "".
  - destruct (negb (Ascii.eqb c "/")) eqn:Hc.
    + destruct (star not_slash k s) as [r'|] eqn:Hs.
      * intros [= <-]. destruct (IH eq_refl) as (seg & b & -> & Hseg & Hk).
        exists (String c seg), b. simpl. by rewrite Hc, Hseg.
      * intros H. by exists "", (String c s).
    + intros H. by exists "", (String c s).
Qed.

Lemma star_not_slash_complete k seg tail :
  noSlash seg = true -> k (String "/" tail) <> None ->
  star not_slash k (seg +:+ String "/" tail) <> None.
Proof.
  intros Hseg Hk. induction seg as [|c seg IH].
  - rewrite append_nil_l. simpl. done.
  - rewrite append_cons. simpl in *.
    apply andb_prop in Hseg as [Hc Hseg]. rewrite Hc.
    by destruct (star not_slash k (seg +:+ String "/" tail)); [|apply IH in Hseg].
Qed.

Lemma lit_sound p k s r :
  lit p k s = Some r -> exists s', s = p +:+ s' /\ k s' = Some r.
Proof.
  unfold lit. destruct (strip_prefix p s) as [s'|] eqn:Hp; [|done].
  apply strip_prefix_Some in Hp. eauto.
Qed.


Lemma search_sound (m : string -> option R) s r :
  search m s = Some r -> exists a b, s = a +:+ b /\ m b = Some r.
Proof.
  induction s as [|c s IH]; simpl.
  - destruct (m "") eqn:Hm; [|done]. intros [= <-]. by exists "", "".
  - destruct (m (String c s)) eqn:Hm.
    + intros [= <-]. by exists "", (String c s).
    + intros (a & b & -> & Hb)%IH. by exists (String c a), b.
Qed.

End Matching.

Lemma star_capture_sound acc s r :
  star_capture dot at_end acc s = Some r -> r = acc +:+ s /\ allDot s = true.
Proof.
  revert acc. induction s as [|c s IH]; intros acc; cbn [star_capture at_end allDot].
  - intros [= <-]. by rewrite append_nil_r.
  - destruct (dot (String c s)) eqn:Hdot; [|done].
    destruct (star_capture dot at_end (acc +:+ String c "") s) as [r'|] eqn:Hs; [|done].
    intros [= <-]. apply IH in Hs as [-> Hall].
    by rewrite append_assoc, Hall.
Qed.


Lemma plus_capture_sound s r :
  plus_capture dot at_end s = Some r -> r = s /\ s <> "" /\ allDot s = true.
Proof.
  destruct s as [|c s]; cbn [plus_capture allDot]; [done|].
  destruct (dot (String c s)) eqn:Hdot; [|done].
  intros [-> Hall]%star_capture_sound. by rewrite Hall.
Qed.


Lemma plus_not_slash_sound {R : Type} (k : string -> option R) s r :
  plus not_slash k s = Some r ->
  exists seg b, s = seg +:+ b /\ seg <> "" /\ noSlash seg = true /\ k b = Some r.
Proof.
  destruct s as [|c s]; simpl; [done|].
  destruct (negb (Ascii.eqb c "/")) eqn:Hc; [|done].
  intros (seg & b & -> & Hseg & Hk)%star_not_slash_sound.
  exists (String c seg), b. simpl. by rewrite Hc, Hseg.
Qed.

(** The part of the pattern after [.*], on the input from a position. *)
Lemma afterPrefix_sound b rest :
  lit "/repositories/" (plus not_slash (lit "/" (plus_capture dot at_end))) b = Some rest ->
  exists segment, patternShape b "" segment rest.
Proof.
  intros (b3 & -> & H)%lit_sound.
  apply plus_not_slash_sound in H as (seg & b4 & -> & Hne & Hseg & H).
  apply lit_sound in H as (b5 & -> & H).
  apply plus_capture_sound in H as (-> & Hrest & Hall).
  exists seg. unfold patternShape. by rewrite append_nil_l.
Qed.


Lemma allDot_append a b : allDot (a +:+ b) = true -> allDot b = true.
Proof.
  induction a as [|c a IH]; [done|]. rewrite append_cons. cbn [allDot].
  intros [_ H]%andb_prop. by apply IH.
Qed.

Section Greedy.
Context {R : Type}.
Implicit Types (k : string -> option R) (s : string).


End Greedy.


Lemma pathMatch_sound path rest :
  pathMatch path = Some rest ->
  exists before segment, patternShape path before segment rest.
Proof.
  unfold pathMatch, pathPattern.
  intros (a1 & b1 & -> & H)%search_sound.
  apply star_sound in H as (a2 & b2 & -> & H).
  apply afterPrefix_sound in H as (seg & -> & Hshape).
  exists (a1 +:+ a2), seg. unfold patternShape.
  rewrite append_nil_l, !append_assoc. done.
Qed.



Lemma slice_last_two {A : Type} (xs : list A) : slice (-2) None xs = lastTwo xs.
Proof.
  unfold slice, lastTwo. simpl.
  replace (Z.to_nat (Z.max (Z.of_nat (length xs) + -2) 0)) with (length xs - 2)%nat by lia.
  apply take_ge. rewrite length_drop. lia.
Qed.








(** Concrete paths: the store prefix removed; no such prefix; and the
    greedy [.*], which reads a path with two [repositories] directories at
    the last one that can be followed by a segment and a rest. *)
Example relativePath_cases :
  relativePath "/data/repositories/demo/src/load.ts" = "src/load.ts"
  /\ relativePath "lib/util/io.ts" = "util/io.ts"
  /\ relativePath "io.ts" = "io.ts"
  /\ relativePath "/data/repositories/demo/src/repositories/user/store.ts" = "store.ts"
  /\ relativePath "/data/repositories/demo/src/repositories/store.ts"
     = "src/repositories/store.ts".
Proof. repeat split; vm_compute; reflexivity. Qed.

(** ** Enrichment and the operation deadline *)

Section Enrichment.
Variables (env : request_env) (functionName defaultBranch : string).

Lemma codeExample_resolves (index : nat) (caller : Caller) :
  exists d,
    codeExample env functionName defaultBranch index caller
    = Resolved d (exampleText env functionName defaultBranch index caller)
    /\ d <= FETCH_TIMEOUT.
Proof.
  unfold codeExample, exampleText, codeSnippetOf.
  set (fetched := fileFromGitHub env index defaultBranch (relativePath (path caller))).
  unfold raceTimeout, FETCH_TIMEOUT.
  destruct fetched as [d [[|c content]|]|d|]; simpl;
    try (destruct (Z.ltb_spec d 5000); simpl;
         [|destruct (Z.eqb_spec d 5000); simpl;
           [destruct (timerFirst env); simpl|]]);
    eexists; (split; [reflexivity|lia]).
Qed.

End Enrichment.

Lemma promiseAll_resolved {A : Type} (ps : list (settle A)) (vs : list A) (bound : Z) :
  0 <= bound ->
  Forall2 (fun p v => exists d, p = Resolved d v /\ d <= bound) ps vs ->
  exists d, promiseAll ps = Resolved d vs /\ 0 <= d <= bound.
Proof.
  intros Hb Hall. unfold promiseAll.
  assert (Hrej : firstRejection ps = None).
  { induction Hall as [|p v ps vs (d & -> & _) _ IH]; simpl; [done|]. by rewrite IH. }
  rewrite Hrej.
  induction Hall as [|p v ps vs (d & -> & Hd) Hall IH]; simpl.
  - exists 0. split; [done|lia].
  - simpl in Hrej. destruct (IH Hrej) as (d' & -> & Hd').
    exists (Z.max d d'). split; [done|lia].
Qed.

Lemma Forall2_imap_same {A B C : Type} (P : B -> C -> Prop)
    (f : nat -> A -> B) (g : nat -> A -> C) (xs : list A) :
  (forall i x, P (f i x) (g i x)) -> Forall2 P (imap f xs) (imap g xs).
Proof.
  revert f g. induction xs as [|x xs IH]; intros f g Hfg; simpl; constructor.
  - apply Hfg.
  - apply IH. intros i y. apply Hfg.
Qed.

Lemma examples_resolve (env : request_env) (f branch : string) (callers : list Caller) :
  exists d,
    promiseAll (imap (codeExample env f branch) callers)
    = Resolved d (imap (exampleText env f branch) callers)
    /\ 0 <= d <= FETCH_TIMEOUT.
Proof.
  apply promiseAll_resolved; [unfold FETCH_TIMEOUT; lia|].
  apply Forall2_imap_same. intros i c. apply codeExample_resolves.
Qed.

Lemma msgSearchTimeout_distinct (f : string) :
  (forall f' n examples, msgSearchTimeout f <> msgResults f' n examples)
  /\ (forall f', msgSearchTimeout f <> msgNoCallers f')
  /\ (forall key p f', msgSearchTimeout f <> msgStillInProgress key p f').
Proof.
  repeat split; intros; intros H; apply (f_equal firstByte) in H; discriminate H.
Qed.

(** What the pipeline answers when it is fulfilled: one of the three whole
    payloads. *)
Lemma lookupPipeline_payload (env : request_env) (key f : string) (limit now : Z)
    (st : service_state) (d : Z) (payload : string) :
  (lookupPipeline env key f limit now st).2 = Resolved d payload ->
  payload = msgNoCallers f
  \/ (exists p, payload = msgStillInProgress key p f)
  \/ (exists dq callers branch,
        functionInfo env f limit = Resolved dq callers
        /\ payload = msgResults f (length callers)
                       (imap (exampleText env f branch) callers)).
Proof.
  unfold lookupPipeline.
  destruct (connection env) as [dc []| |]; [|discriminate..].
  unfold graphOperation.
  destruct (functionInfo env f limit) as [dq [|c cs]| |] eqn:Hq.
  - destruct (getCreationProgress key (now + dc + dq) st) as [st' p].
    cbn [later andThen andFinally orElse snd].
    destruct (closing env) as [dx []| |]; cbn [later andThen]; [|discriminate..].
    intros [= _ <-]. destruct (Progress.inProgress p); eauto.
  - cbn [later andThen andFinally orElse snd].
    destruct (repoBranch env) as [db branch| |]; cbn [later andThen andFinally];
      [|destruct (closing env); discriminate..].
    destruct (examples_resolve env f branch (c :: cs)) as (D & HD & _).
    rewrite HD. cbn [later andThen andFinally].
    destruct (closing env) as [dx []| |]; cbn [later andThen]; [|discriminate..].
    intros [= _ <-]. right. right. by exists dq, (c :: cs), branch.
  - cbn [later andThen andFinally snd]. destruct (closing env); discriminate.
  - discriminate.
Qed.







(** C2, as amended: when the graph exists, the lookup pipeline runs against
    the eight-second operation timer. Its payload is the answer when it is
    fulfilled before the timer; when it is fulfilled too late or not at all
    the answer is the advisory text and nothing of what was computed is in
    it; the same advisory text also answers a pipeline that fails, before
    the deadline or after. An answer is thus the advisory text or one whole
    payload of the pipeline, with an entry for every caller, and the advisory
    text differs from every payload. *)
Theorem operation_deadline (env : request_env) (key f : string) (limit now : Z)
    (st : service_state) :
  let pipeline := (lookupPipeline env key f limit now st).2 in
  let answer := (graphExistsBranch env key f limit now st).2 in
  (forall d payload, pipeline = Resolved d payload -> d < 8000 ->
     answer = Resolved d payload)
  /\ (forall d payload, pipeline = Resolved d payload -> 8000 < d ->
        answer = Resolved 8000 (msgSearchTimeout f))
  /\ (pipeline = Pending -> answer = Resolved 8000 (msgSearchTimeout f))
  /\ (forall d, pipeline = Rejected d ->
        answer = Resolved (Z.min d 8000) (msgSearchTimeout f))
  /\ (exists d text,
        answer = Resolved d text
        /\ (text = msgSearchTimeout f
            \/ pipeline = Resolved d text
               /\ (text = msgNoCallers f
                   \/ (exists p, text = msgStillInProgress key p f)
                   \/ (exists dq callers branch,
                         functionInfo env f limit = Resolved dq callers
                         /\ text = msgResults f (length callers)
                                     (imap (exampleText env f branch) callers)))))
  /\ (forall f' n examples key' p,
        msgSearchTimeout f <> msgResults f' n examples
        /\ msgSearchTimeout f <> msgNoCallers f'
        /\ msgSearchTimeout f <> msgStillInProgress key' p f').
Proof.
  intros pipeline answer.
  assert (Hanswer : answer = orElse (raceTimeout OPERATION_TIMEOUT (timerFirst env) pipeline)
                               (msgSearchTimeout f)).
  { subst answer pipeline. unfold graphExistsBranch.
    by destruct (lookupPipeline env key f limit now st). }
  pose proof (lookupPipeline_payload env key f limit now st) as Hpayload.
  fold pipeline in Hpayload. clearbody pipeline answer. subst answer.
  unfold raceTimeout, OPERATION_TIMEOUT.
  split; [|split; [|split; [|split; [|split]]]].
  - intros d payload -> Hd. by destruct (Z.ltb_spec d 8000); [|lia].
  - intros d payload -> Hd. destruct (Z.ltb_spec d 8000); [lia|].
    by destruct (Z.eqb_spec d 8000); [lia|].
  - by intros ->.
  - intros d ->. destruct (Z.ltb_spec d 8000); simpl.
    + by rewrite Z.min_l by lia.
    + rewrite Z.min_r by lia.
      destruct (Z.eqb_spec d 8000) as [->|]; [by destruct (timerFirst env)|done].
  - destruct pipeline as [d payload|d|]; simpl.
    + destruct (_ || _); simpl; eauto 10.
    + destruct (_ || _); simpl; eauto.
    + eauto.
  - intros f' n examples key' p.
    destruct (msgSearchTimeout_distinct f) as (H1 & H2 & H3). eauto.
Qed.


(** The same request, computed: the second example carries the fallback. *)
Example one_fetch_hangs :
  response (fetchUsageCodeExamples oneFetchHangsEnv sampleConfig sampleRepo
              "parse" 10 0 emptyState)
  = Resolved 5186
      (msgResults "parse" 2
         [ msgExample 0 "load" "src/load.ts" 2 "parse"
             ("      1: import a" +:+ LF +:+ ">>>   2: parse(a)" +:+ LF
              +:+ "      3: done");
           msgExample 1 "save" "src/save.ts" 7 "parse"
             (msgFallback "save" "src/save.ts" 7 "parse") ]).
Proof. vm_compute. reflexivity. Qed.

(** C2, as stated, fails: the connection for the query is refused after 10
    milliseconds, the pipeline fails long before the deadline, and the
    request answers with the advisory text of the timeout. *)
Lemma advisory_text_without_exceeded_deadline :
  (lookupPipeline refusedConnectionEnv "octo/demo" "parse" 10 10 emptyState).2
    = Rejected 10
  /\ 10 < OPERATION_TIMEOUT
  /\ (graphExistsBranch refusedConnectionEnv "octo/demo" "parse" 10 10 emptyState).2
     = Resolved 10 (msgSearchTimeout "parse")
  /\ response (fetchUsageCodeExamples refusedConnectionEnv sampleConfig sampleRepo
                 "parse" 10 0 emptyState)
     = Resolved 21 (msgSearchTimeout "parse").
Proof. repeat split; vm_compute; reflexivity. Qed.

Lemma operation_deadline_witness :
  (exists d payload,
     (lookupPipeline slowBranchEnv "octo/demo" "parse" 10 10 emptyState).2
       = Resolved d payload /\ 8000 < d)
  /\ (graphExistsBranch slowBranchEnv "octo/demo" "parse" 10 10 emptyState).2
     = Resolved 8000 (msgSearchTimeout "parse").
Proof.
  assert (Hlate : exists d payload,
             (lookupPipeline slowBranchEnv "octo/demo" "parse" 10 10 emptyState).2
               = Resolved d payload /\ 8000 < d).
  { eexists _, _. split; [vm_compute; reflexivity | lia]. }
  split; [exact Hlate|].
  destruct Hlate as (d & payload & Hp & Hd).
  destruct (operation_deadline slowBranchEnv "octo/demo" "parse" 10 10 emptyState)
    as (_ & H & _).
  exact (H d payload Hp Hd).
Defined.

(** * Further properties of the code *)

(** ** The registry and the legacy locks *)

(** X1: [isCreationInProgress] and [getCreationProgress] agree: the flag of
    the one is the [inProgress] of the view of the other, and both leave the
    same state behind (the same stale record evicted). *)
Theorem isCreationInProgress_agrees (key : string) (now : Z) (st : service_state) :
  (isCreationInProgress key now st).2
  = Progress.inProgress (getCreationProgress key now st).2
  /\ (isCreationInProgress key now st).1 = (getCreationProgress key now st).1.
Proof.
  unfold isCreationInProgress, getCreationProgress.
  destruct (registry st !! key) as [e|]; [|done].
  destruct (Entry.inProgress e); [|done].
  by destruct (20 <? minutes_between now (Entry.timestamp e)).
Qed.

(** X2: reading the progress twice at the same time gives the same view
    twice, and the second reading changes nothing: an eviction happens at the
    first reading or not at all. *)
Theorem getCreationProgress_idempotent (key : string) (now : Z) (st : service_state) :
  getCreationProgress key now (getCreationProgress key now st).1
  = getCreationProgress key now st.
Proof.
  unfold getCreationProgress at 2 3.
  destruct (registry st !! key) as [e|] eqn:Hreg.
  - destruct (Entry.inProgress e) eqn:Hp.
    + destruct (Z.ltb_spec 20 (minutes_between now (Entry.timestamp e))).
      * simpl. apply getCreationProgress_absent. simpl. apply lookup_delete_eq.
      * simpl. by apply getCreationProgress_active.
    + simpl. unfold getCreationProgress. by rewrite Hreg, Hp.
  - simpl. by apply getCreationProgress_absent.
Qed.

(** X3: a lock set on a key without a record reads back, within the first
    minute, as in progress with 0 elapsed minutes in the phase of analysis;
    once the lock is cleared the key reads back as not in progress, whatever
    the record and the time. *)
Theorem setCreationLock_read_back (key : string) (now later : Z) (st : service_state) :
  (registry st !! key = None -> now <= later < now + 60000 ->
   getCreationProgress key later (setCreationLock key true now st)
   = (setCreationLock key true now st,
      Progress.mk true 0 "5-10 minutes" "Analyzing repository"))
  /\ getCreationProgress key later (setCreationLock key false now st)
     = (setCreationLock key false now st, Progress.mk false 0 "N/A" "Complete").
Proof.
  split.
  - intros Hnone Hlater.
    assert (Hreg : registry (setCreationLock key true now st) !! key
                   = Some (Entry.mk true now "Initializing analysis")).
    { rewrite setCreationLock_registry_true, Hnone. apply lookup_insert_eq. }
    assert (Hm : minutes_between later now = 0).
    { unfold minutes_between. apply Z.div_small. lia. }
    rewrite (getCreationProgress_active _ _ _ _ Hreg eq_refl); simpl; rewrite Hm; [done|lia].
  - apply getCreationProgress_absent. rewrite setCreationLock_registry_false.
    apply lookup_delete_eq.
Qed.

Lemma setCreationLock_read_back_witness :
  registry emptyState !! "octo/demo" = None
  /\ Progress.inProgress
       (getCreationProgress "octo/demo" 1500
          (setCreationLock "octo/demo" true 1000 emptyState)).2 = true.
Proof.
  split; [reflexivity|].
  rewrite (proj1 (setCreationLock_read_back "octo/demo" 1000 1500 emptyState));
    [reflexivity | reflexivity | lia].
Defined.

(** X4: setting the lock again on a record that is already stale (21
    minutes or more, with a timestamp other than 0) does not refresh it: the
    old timestamp is kept, and the next reading of the progress reports "not
    in progress" and removes the record that was just set. *)
Theorem setCreationLock_on_stale_record (key : string) (now : Z) (st : service_state)
    (e : Entry.t) :
  registry st !! key = Some e -> Entry.timestamp e <> 0 ->
  21 * 60 * 1000 <= now - Entry.timestamp e ->
  registry (setCreationLock key true now st) !! key
    = Some (Entry.mk true (Entry.timestamp e) "Initializing analysis")
  /\ (getCreationProgress key now (setCreationLock key true now st)).2
     = Progress.mk false 0 "N/A" "Complete"
  /\ registry (getCreationProgress key now (setCreationLock key true now st)).1 !! key
     = None.
Proof.
  intros Hreg Hts Hage.
  assert (Hlock : registry (setCreationLock key true now st) !! key
                  = Some (Entry.mk true (Entry.timestamp e) "Initializing analysis")).
  { rewrite setCreationLock_registry_true, Hreg. simpl.
    destruct (Z.eqb_spec (Entry.timestamp e) 0); [contradiction|].
    apply lookup_insert_eq. }
  split; [exact Hlock|].
  assert (Hm : 20 < minutes_between now (Entry.timestamp e)).
  { apply Z.le_succ_l, minutes_between_le. lia. }
  rewrite (getCreationProgress_stale _ _ _ _ Hlock eq_refl Hm). simpl.
  split; [done | apply lookup_delete_eq].
Qed.

Lemma setCreationLock_on_stale_record_witness :
  registry (lockedAt 1000) !! "octo/demo"
    = Some (Entry.mk true 1000 "Initializing analysis")
  /\ registry (getCreationProgress "octo/demo" 1300000
                 (setCreationLock "octo/demo" true 1300000 (lockedAt 1000))).1
       !! "octo/demo" = None.
Proof.
  split; [reflexivity|].
  apply (setCreationLock_on_stale_record "octo/demo" 1300000 (lockedAt 1000)
           (Entry.mk true 1000 "Initializing analysis"));
    [reflexivity | discriminate | simpl; lia].
Defined.

Section Frame.
Implicit Types (st : service_state) (key other : string) (now : Z).

Lemma clearStaleLocks_elsewhere key other now st :
  other <> key ->
  registry (clearStaleLocks key now st) !! other = registry st !! other.
Proof.
  intros Hne. rewrite clearStaleLocks_registry.
  destruct (registry st !! key) as [e|]; [|done].
  destruct (10 <? _); [|done]. by apply lookup_delete_ne.
Qed.

Lemma setCreationLock_elsewhere key other status now st :
  other <> key ->
  registry (setCreationLock key status now st) !! other = registry st !! other.
Proof.
  intros Hne. destruct status.
  - rewrite setCreationLock_registry_true. by apply lookup_insert_ne.
  - rewrite setCreationLock_registry_false. by apply lookup_delete_ne.
Qed.

Lemma getCreationProgress_elsewhere key other now st :
  other <> key ->
  registry (getCreationProgress key now st).1 !! other = registry st !! other.
Proof.
  intros Hne. unfold getCreationProgress.
  destruct (registry st !! key) as [e|]; [|done].
  destruct (Entry.inProgress e); [|done].
  destruct (20 <? _); [|done]. simpl. by apply lookup_delete_ne.
Qed.

Lemma graphMissingBranch_elsewhere config o r f other now st :
  other <> o +:+ "/" +:+ r ->
  registry (state (graphMissingBranch config o r f now st)) !! other
  = registry st !! other.
Proof.
  intros Hne. unfold graphMissingBranch.
  pose proof (clearStaleLocks_elsewhere (o +:+ "/" +:+ r) other now st Hne) as H1.
  pose proof (getCreationProgress_elsewhere (o +:+ "/" +:+ r) other now
                (clearStaleLocks (o +:+ "/" +:+ r) now st) Hne) as H2.
  destruct (getCreationProgress _ now (clearStaleLocks _ now st)) as [st2 progress].
  simpl in H2.
  set (st3 := if _ && _ then _ else st2).
  assert (H3 : registry st3 !! other = registry st !! other).
  { subst st3. destruct (_ && _); [|congruence]. simpl.
    rewrite lookup_delete_ne by done. rewrite lookup_delete_ne by done. congruence. }
  pose proof (getCreationProgress_elsewhere (o +:+ "/" +:+ r) other now st3 Hne) as H4.
  destruct (getCreationProgress _ now st3) as [st4 finalProgress]. simpl in H4.
  destruct (Progress.inProgress finalProgress); cbn [state]; [congruence|].
  rewrite setCreationLock_elsewhere by done. congruence.
Qed.

Lemma graphExistsBranch_elsewhere env key other f limit now st :
  other <> key ->
  registry (graphExistsBranch env key f limit now st).1 !! other
  = registry st !! other.
Proof.
  intros Hne. unfold graphExistsBranch, lookupPipeline.
  destruct (connection env) as [d []| |]; simpl; try done.
  unfold graphOperation.
  destruct (functionInfo env f limit) as [d' [|c cs]| |]; simpl; try done.
  pose proof (getCreationProgress_elsewhere key other (now + d + d') st Hne) as H.
  by destruct (getCreationProgress key (now + d + d') st).
Qed.
End Frame.

(** X5: an operation on the registry touches the record of its own key
    only: setting and clearing a lock, the eviction of stale locks, reading
    the progress, the build routine, its cleanup timer and a whole request
    leave the record of every other repository as it was. *)
Theorem registry_frame (op : registry_op) (st : service_state) (other : string) :
  other <> op_key op ->
  registry (apply_op op st) !! other = registry st !! other.
Proof.
  intros Hne. destruct op; simpl in *.
  - by apply setCreationLock_elsewhere.
  - by apply clearStaleLocks_elsewhere.
  - by apply getCreationProgress_elsewhere.
  - unfold isCreationInProgress.
    destruct (registry st !! repoKey) as [e|]; [|done].
    destruct (Entry.inProgress e); [|done].
    destruct (20 <? _); [|done]. simpl. by apply lookup_delete_ne.
  - by apply lookup_insert_ne.
  - destruct a as [k]. simpl. by apply lookup_delete_ne.
  - unfold fetchUsageCodeExamples.
    destruct (isBlank _ || isBlank _); [done|].
    destruct (checkGraphExists _ _) as [d [|]| |]; simpl; try done.
    + pose proof (graphExistsBranch_elsewhere env (repoKeyOf repoData) other
                    functionName limit (now + d) st Hne) as H.
      unfold repoKeyOf in H. by destruct (graphExistsBranch _ _ _ _ _ _).
    + by apply graphMissingBranch_elsewhere.
Qed.

Lemma registry_frame_witness :
  "acme/site" <> op_key (OpSetLock "octo/demo" false 5000)
  /\ registry (apply_op (OpSetLock "octo/demo" false 5000)
                 (setCreationLock "acme/site" true 2000 (lockedAt 1000))) !! "acme/site"
     = Some (Entry.mk true 2000 "Initializing analysis").
Proof.
  split; [discriminate|].
  rewrite (registry_frame (OpSetLock "octo/demo" false 5000)
             (setCreationLock "acme/site" true 2000 (lockedAt 1000)) "acme/site");
    [reflexivity | discriminate].
Defined.

(** X6: after [clearStaleLocks key] nothing stale is left for the key: a
    record that remains in the registry is at most 10 whole minutes old, and
    so is a legacy timestamp that remains and counts as a timestamp (a truthy
    value). Clearing once is enough: a second call at the same time changes
    nothing. *)
Theorem clearStaleLocks_leaves_nothing_stale (key : string) (now : Z)
    (st : service_state) :
  (forall e, registry (clearStaleLocks key now st) !! key = Some e ->
             minutes_between now (Entry.timestamp e) <= 10)
  /\ (forall v, graphCreationLocks (clearStaleLocks key now st) !! timestamp_key key
                = Some v ->
                truthy v = true -> minutes_between now (to_number v) <= 10)
  /\ clearStaleLocks key now (clearStaleLocks key now st) = clearStaleLocks key now st.
Proof.
  assert (Hreg : forall e, registry (clearStaleLocks key now st) !! key = Some e ->
                           minutes_between now (Entry.timestamp e) <= 10).
  { intros e. rewrite clearStaleLocks_registry.
    destruct (registry st !! key) as [e0|] eqn:H0; [|congruence].
    destruct (Z.ltb_spec 10 (minutes_between now (Entry.timestamp e0))).
    - by rewrite lookup_delete_eq.
    - rewrite H0. intros [= <-]. done. }
  assert (Hleg : forall v, graphCreationLocks (clearStaleLocks key now st)
                             !! timestamp_key key = Some v ->
                           truthy v = true -> minutes_between now (to_number v) <= 10).
  { intros v. unfold clearStaleLocks.
    set (st1 := match registry st !! key with Some _ => _ | None => st end).
    destruct (graphCreationLocks st1 !! timestamp_key key) as [v0|] eqn:H0.
    - destruct (truthy v0) eqn:Ht.
      + destruct (Z.ltb_spec 10 (minutes_between now (to_number v0))).
        * simpl. by rewrite lookup_delete_eq.
        * rewrite H0. by intros [= <-].
      + rewrite H0. intros [= <-]. congruence.
    - by rewrite H0. }
  split; [exact Hreg|]. split; [exact Hleg|].
  set (st' := clearStaleLocks key now st) in *.
  unfold clearStaleLocks at 1.
  assert (H1 : match registry st' !! key with
               | Some entry =>
                   if 10 <? minutes_between now (Entry.timestamp entry)
                   then mkState (delete key (registry st'))
                          (delete (timestamp_key key)
                             (delete key (graphCreationLocks st')))
                   else st'
               | None => st'
               end = st').
  { destruct (registry st' !! key) as [e|] eqn:He; [|done].
    specialize (Hreg e eq_refl).
    by destruct (Z.ltb_spec 10 (minutes_between now (Entry.timestamp e))); [lia|]. }
  rewrite H1.
  destruct (graphCreationLocks st' !! timestamp_key key) as [v|] eqn:Hv; [|done].
  destruct (truthy v) eqn:Ht; [|done].
  specialize (Hleg v eq_refl Ht).
  by destruct (Z.ltb_spec 10 (minutes_between now (to_number v))); [lia|].
Qed.

(** X7: the legacy map mirrors the lock: after [setCreationLock key status]
    the entry of the key is [status]. Its timestamp entry is stamped when the
    lock is set and none is there, and is otherwise left alone, also by
    [setCreationLock key false]; the cleanup timer removes the record and the
    timestamp and leaves the entry of the key at [false]. *)
Theorem legacy_locks_mirror (key : string) (status : bool) (now : Z)
    (st : service_state) :
  graphCreationLocks (setCreationLock key status now st) !! key = Some (LBool status)
  /\ graphCreationLocks (setCreationLock key status now st) !! timestamp_key key
     = match graphCreationLocks st !! timestamp_key key with
       | Some v => Some v
       | None => if status then Some (LNum now) else None
       end
  /\ registry (fireTimer (CleanupLocks key) now st) !! key = None
  /\ graphCreationLocks (fireTimer (CleanupLocks key) now st) !! key
     = Some (LBool false)
  /\ graphCreationLocks (fireTimer (CleanupLocks key) now st) !! timestamp_key key
     = None.
Proof.
  pose proof (timestamp_key_ne key) as Hne.
  assert (Hts : <[key:=LBool status]> (graphCreationLocks st) !! timestamp_key key
                = graphCreationLocks st !! timestamp_key key)
    by (by apply lookup_insert_ne).
  unfold setCreationLock, fireTimer. simpl. repeat split.
  - destruct (status && _); [|apply lookup_insert_eq].
    rewrite lookup_insert_ne by done. apply lookup_insert_eq.
  - rewrite Hts. destruct (graphCreationLocks st !! timestamp_key key) as [v|] eqn:Hv.
    + rewrite bool_decide_eq_true_2 by eauto. rewrite andb_false_r. by rewrite Hts.
    + rewrite bool_decide_eq_false_2 by (intros [? ?]; congruence).
      rewrite andb_true_r. destruct status; [apply lookup_insert_eq|]. by rewrite Hts.
  - apply lookup_delete_eq.
  - rewrite lookup_delete_ne by done. apply lookup_insert_eq.
  - apply lookup_delete_eq.
Qed.

Lemma clearStaleLocks_leaves_nothing_stale_witness :
  minutes_between (1000 + 599999) 1000 <= 10
  /\ clearStaleLocks "octo/demo" 700000 (clearStaleLocks "octo/demo" 700000 (lockedAt 1000))
     = clearStaleLocks "octo/demo" 700000 (lockedAt 1000).
Proof.
  split.
  - apply (proj1 (clearStaleLocks_leaves_nothing_stale "octo/demo" (1000 + 599999)
                    (lockedAt 1000))
             (Entry.mk true 1000 "Initializing analysis")).
    reflexivity.
  - apply (clearStaleLocks_leaves_nothing_stale "octo/demo" 700000 (lockedAt 1000)).
Defined.

(** ** The background build: how long it runs, when it stops polling *)

Lemma raceTimeout_bound {A : Type} (limit : Z) (timerFirst : bool) (p : settle A) :
  (exists d v, raceTimeout limit timerFirst p = Resolved d v /\ d <= limit)
  \/ (exists d, raceTimeout limit timerFirst p = Rejected d /\ d <= limit).
Proof.
  unfold raceTimeout. destruct p as [d v|d|].
  - destruct (Z.ltb_spec d limit); simpl; [left; exists d, v; split; [done|lia]|].
    destruct (Z.eqb_spec d limit); simpl.
    + destruct timerFirst; simpl; [right|left]; eexists; eauto with lia.
    + right. eexists. split; [done|lia].
  - right. destruct (Z.ltb_spec d limit); simpl; [exists d; split; [done|lia]|].
    destruct (Z.eqb_spec d limit); simpl.
    + destruct timerFirst; simpl; eexists; (split; [done|lia]).
    + eexists. split; [done|lia].
  - right. eexists. split; [done|lia].
Qed.

Section BuildTime.
Variables (env : build_env) (graphName : option string) (listingTime : Z).
Hypothesis listingTime_nonneg : 0 <= listingTime.
Hypothesis listings_in_time :
  forall n, exists d,
    d <= listingTime
    /\ (listingAt env n = Rejected d \/ exists graphs, listingAt env n = Resolved d graphs).

Lemma graphListed_in_time (n : nat) :
  exists d b, graphListed graphName (listingAt env n) = Resolved d b /\ d <= listingTime.
Proof.
  destruct (listings_in_time n) as (d & Hd & [H|[graphs H]]);
    unfold graphListed, checkGraphExists; rewrite H;
    destruct graphName; simpl; eexists _, _; (split; [reflexivity|lia]).
Qed.

Lemma pollGraph_in_time (remaining attempts : nat) :
  exists d,
    pollGraph graphName (listingAt env) remaining attempts = Resolved d ()
    /\ d <= Z.of_nat remaining * (POLL_INTERVAL + listingTime).
Proof.
  unfold POLL_INTERVAL. revert attempts.
  induction remaining as [|r IH]; intros attempts.
  - exists 0. split; [done|lia].
  - cbn [pollGraph]. destruct (graphListed_in_time (S attempts)) as (d & b & -> & Hd).
    destruct b; cbn [andThen later].
    + eexists. split; [reflexivity|]. unfold POLL_INTERVAL. lia.
    + destruct (IH (S attempts)) as (d' & -> & Hd'). cbn [later].
      eexists. split; [reflexivity|]. unfold POLL_INTERVAL. lia.
Qed.

Lemma buildAttempt_in_time :
  (exists d, buildAttempt env graphName = Resolved d ()
             /\ d <= listingTime + REQUEST_TIMEOUT
                     + Z.of_nat MAX_ATTEMPTS * (POLL_INTERVAL + listingTime))
  \/ (exists d, buildAttempt env graphName = Rejected d
                /\ d <= listingTime + REQUEST_TIMEOUT).
Proof.
  unfold buildAttempt.
  destruct (pollGraph_in_time MAX_ATTEMPTS 0) as (dp & Hp & Hdp).
  set (polling := pollGraph graphName (listingAt env) MAX_ATTEMPTS 0) in *.
  clearbody polling. subst polling.
  assert (Hmax : 0 <= Z.of_nat MAX_ATTEMPTS * (POLL_INTERVAL + listingTime))
    by (unfold POLL_INTERVAL; lia).
  assert (Hreq : 0 <= REQUEST_TIMEOUT) by (unfold REQUEST_TIMEOUT; lia).
  destruct (graphListed_in_time 0) as (d & b & -> & Hd).
  destruct b; cbn [andThen later].
  - left. eexists. split; [reflexivity|lia].
  - destruct (raceTimeout_bound REQUEST_TIMEOUT (abortFirst env)
                (andThen (analysisRequest env)
                   (fun ok => andThen (responseText env) (fun _ => Resolved 0 ok))))
      as [(dr & ok & -> & Hdr)|(dr & -> & Hdr)]; cbn [andThen later].
    + destruct ok; cbn [later].
      * left. eexists. split; [reflexivity|lia].
      * right. eexists. split; [reflexivity|lia].
    + right. eexists. split; [reflexivity|lia].
Qed.
End BuildTime.

(** X8: the build routine ends in bounded time: when every listing of the
    store is answered (or fails) within [listingTime], the routine ends no
    later than one listing, the 10 minutes of the request and 15 polls of 30
    seconds and one listing each after its start, whatever the analysis
    service does. *)
Theorem background_build_ends_in_time (env : build_env) (config : CodeGraphConfig)
    (repoData : RepoData) (now : Z) (rt : runtime) (listingTime : Z) :
  0 <= listingTime ->
  (forall n, exists d,
      d <= listingTime
      /\ (listingAt env n = Rejected d
          \/ exists graphs, listingAt env n = Resolved d graphs)) ->
  exists d,
    finished (startBackgroundCreation env config repoData now rt) = Resolved d ()
    /\ d <= listingTime + 10 * 60 * 1000 + 15 * (30 * 1000 + listingTime).
Proof.
  intros Hpos Hlist. unfold startBackgroundCreation. cbn [finished].
  change (listingTime + 10 * 60 * 1000 + 15 * (30 * 1000 + listingTime))
    with (listingTime + REQUEST_TIMEOUT
          + Z.of_nat MAX_ATTEMPTS * (POLL_INTERVAL + listingTime)).
  destruct (buildAttempt_in_time env (repo repoData) listingTime Hpos Hlist)
    as [(d & -> & Hd)|(d & -> & Hd)]; cbn [orElse].
  - by exists d.
  - exists d. split; [done|]. unfold MAX_ATTEMPTS, POLL_INTERVAL. lia.
Qed.

Lemma background_build_ends_in_time_witness :
  exists d,
    finished (startBackgroundCreation requestHangsEnv sampleConfig sampleRepo 1000
                idleRuntime) = Resolved d ()
    /\ d <= 5 + 10 * 60 * 1000 + 15 * (30 * 1000 + 5).
Proof.
  apply (background_build_ends_in_time requestHangsEnv sampleConfig sampleRepo 1000
           idleRuntime 5); [lia|].
  intros n. exists 5. split; [lia|]. right. by exists [].
Defined.

Section Polling.
Variables (env : build_env) (graphName : string).
Variables (wait : nat -> Z) (listed : nat -> list string).
Hypothesis listings : forall n, listingAt env n = Resolved (wait n) (listed n).

(** The time of the polls from the one after [attempts] to the [n]-th
    after it: 30 seconds and a listing each. *)
Lemma pollGraph_stops (n remaining attempts : nat) :
  (n < remaining)%nat ->
  (forall i, (i < n)%nat -> graphName ∉ listed (S attempts + i)) ->
  graphName ∈ listed (S attempts + n) ->
  pollGraph (Some graphName) (listingAt env) remaining attempts
  = Resolved
      (foldr Z.add 0 ((fun i => POLL_INTERVAL + wait i) <$> seq (S attempts) (S n)))
      ().
Proof.
  revert remaining attempts. induction n as [|n IH]; intros remaining attempts Hn Hno Hyes.
  - destruct remaining as [|r]; [lia|]. cbn [pollGraph graphListed].
    unfold checkGraphExists. rewrite listings. cbn [andThen later orElse].
    rewrite Nat.add_0_r in Hyes. rewrite bool_decide_eq_true_2 by done.
    cbn [later seq fmap list_fmap foldr]. f_equal. lia.
  - destruct remaining as [|r]; [lia|]. cbn [pollGraph graphListed].
    unfold checkGraphExists. rewrite listings. cbn [andThen later orElse].
    rewrite bool_decide_eq_false_2
      by (specialize (Hno 0%nat); rewrite Nat.add_0_r in Hno; apply Hno; lia).
    rewrite (IH r (S attempts)).
    + cbn [later]. change (seq (S attempts) (S (S n)))
        with (S attempts :: seq (S (S attempts)) (S n)).
      cbn [fmap list_fmap foldr]. f_equal.
      change (list_fmap nat Z (fun i => POLL_INTERVAL + wait i))
        with (fmap (M := list) (fun i : nat => POLL_INTERVAL + wait i)).
      lia.
    + lia.
    + intros i Hi. specialize (Hno (S i)).
      replace (S (S attempts) + i)%nat with (S attempts + S i)%nat by lia.
      apply Hno. lia.
    + by replace (S (S attempts) + n)%nat with (S attempts + S n)%nat by lia.
Qed.
End Polling.

(** X9: polling stops at the first listing that shows the graph: when the
    store does not list the graph before the request, the service answers
    the request in time with [ok], and the graph appears at the poll number
    [n + 1] (within the 15 of the budget) and at none before, the routine
    ends right after that poll: its time is the first listing, the request
    with the reading of its body, and [n + 1] polls of 30 seconds and a
    listing each; no later listing counts. *)
Theorem background_build_stops_polling (env : build_env) (config : CodeGraphConfig)
    (repoData : RepoData) (now : Z) (rt : runtime) (graphName : string)
    (wait : nat -> Z) (listed : nat -> list string) (n : nat) (dr db : Z)
    (body : string) :
  repo repoData = Some graphName ->
  (forall i, listingAt env i = Resolved (wait i) (listed i)) ->
  analysisRequest env = Resolved dr true ->
  responseText env = Resolved db body ->
  dr + db < 10 * 60 * 1000 ->
  (n < 15)%nat ->
  (forall i, (i <= n)%nat -> graphName ∉ listed i) ->
  graphName ∈ listed (S n) ->
  finished (startBackgroundCreation env config repoData now rt)
  = Resolved
      (wait 0%nat + (dr + db)
       + foldr Z.add 0 ((fun i => 30 * 1000 + wait i) <$> seq 1 (S n)))
      ().
Proof.
  intros Hrepo Hlist Hreq Hbody Htime Hn Hno Hyes.
  unfold startBackgroundCreation. cbn [finished]. unfold buildAttempt.
  rewrite Hrepo. cbn [graphListed]. unfold checkGraphExists. rewrite Hlist.
  cbn [andThen later orElse].
  rewrite bool_decide_eq_false_2 by (apply (Hno 0%nat); lia).
  rewrite Hreq, Hbody. cbn [andThen later]. unfold raceTimeout, REQUEST_TIMEOUT.
  destruct (Z.ltb_spec (dr + (db + 0)) (10 * 60 * 1000)); [|lia].
  cbn [orb andThen later].
  rewrite (pollGraph_stops env graphName wait listed Hlist n MAX_ATTEMPTS 0).
  - cbn [later orElse]. f_equal. unfold POLL_INTERVAL. lia.
  - unfold MAX_ATTEMPTS. lia.
  - intros i Hi. apply Hno. lia.
  - exact Hyes.
Qed.

Lemma background_build_stops_polling_witness :
  finished (startBackgroundCreation graphAppearsEnv sampleConfig sampleRepo 1000
              idleRuntime)
  = Resolved
      (5 + (2000 + 10)
       + foldr Z.add 0 ((fun i : nat => 30 * 1000 + 5) <$> seq 1 3))
      ().
Proof.
  apply (background_build_stops_polling graphAppearsEnv sampleConfig sampleRepo 1000
           idleRuntime "demo" (fun _ => 5)
           (fun n => if (3 <=? n)%nat then ["demo"] else []) 2 2000 10 "queued");
    try reflexivity; try lia.
  - intros i Hi. destruct (Nat.leb_spec 3 i); [lia|]. apply not_elem_of_nil.
  - simpl. constructor.
Defined.

(** X10: the cleanup timer of an earlier run is not cancelled by a new run:
    when a cleanup for the key is pending at [due] and a new run for the same
    key starts before it and ends less than two minutes before it or later,
    the timer removes the lock of the new run at [due], before the cleanup of
    the new run itself, which stays armed. *)
Theorem earlier_cleanup_clears_later_lock (env : build_env) (config : CodeGraphConfig)
    (repoData : RepoData) (now due d : Z) (st : service_state) :
  let key := repoKeyOf repoData in
  let run := startBackgroundCreation env config repoData now
               (mkRuntime st [(due, CleanupLocks key)]) in
  now <= due ->
  finished run = Resolved d () ->
  due < now + d + 2 * 60 * 1000 ->
  (exists e, registry (service (after run)) !! key = Some e)
  /\ registry (service (advanceTo due (after run))) !! key = None
  /\ timers (advanceTo due (after run))
     = [(now + d + 2 * 60 * 1000, CleanupLocks key)].
Proof.
  intros key run Hnow Hend Hdue. subst run.
  unfold startBackgroundCreation in *. cbn [finished after service timers] in *.
  rewrite Hend. fold key. split.
  - eexists. apply lookup_insert_eq.
  - unfold advanceTo. cbn [timers service armTimer].
    change CLEANUP_DELAY with (2 * 60 * 1000).
    destruct (Z.leb_spec due (now + d + 2 * 60 * 1000)); [|lia].
    cbn [fireDue]. rewrite Z.leb_refl.
    destruct (Z.leb_spec (now + d + 2 * 60 * 1000) due); [lia|].
    cbn [service timers fireTimer registry]. split; [|done].
    rewrite setCreationLock_registry_false. apply lookup_delete_eq.
Qed.

Lemma earlier_cleanup_clears_later_lock_witness :
  let run := startBackgroundCreation budgetSpentEnv sampleConfig sampleRepo 1000
               (mkRuntime emptyState [(60000, CleanupLocks "octo/demo")]) in
  registry (service (advanceTo 60000 (after run))) !! "octo/demo" = None.
Proof.
  apply (earlier_cleanup_clears_later_lock budgetSpentEnv sampleConfig sampleRepo
           1000 60000 452090 emptyState); [lia | vm_compute; reflexivity | lia].
Defined.

(** ** The callback: the remaining branches *)

Section Starts.
Variables (config : CodeGraphConfig) (o r f : string).
Local Abbreviation key := (o +:+ "/" +:+ r).

(** Outside the case of a build in progress for less than five whole
    minutes, the branch for an absent graph starts a build. *)
Lemma graphMissingBranch_starts (now : Z) (st : service_state) :
  registry_ok st ->
  (let view := (getCreationProgress key now (clearStaleLocks key now st)).2 in
   Progress.inProgress view = false
   \/ FORCE_CLEAR_MINUTES <= Progress.elapsedMinutes view) ->
  text (graphMissingBranch config o r f now st) = msgStarting key f
  /\ sent (graphMissingBranch config o r f now st)
     = [ mkRequest (getCodeGraphApiUrl config) (authToken config)
           (getGitHubRepoUrl o r) (ignorePatterns config) ]
  /\ registry (state (graphMissingBranch config o r f now st))
     = <[key := Entry.mk true now "Initializing analysis"]> (registry st).
Proof.
  intros Hok Hview.
  destruct (registry st !! key) as [e|] eqn:Hreg.
  - pose proof (Hok _ _ Hreg) as Hp.
    destruct (Z.le_gt_cases FORCE_CLEAR_MINUTES (minutes_between now (Entry.timestamp e)))
      as [Hold|Hyoung].
    + unfold graphMissingBranch.
      destruct (Z.ltb_spec 10 (minutes_between now (Entry.timestamp e))) as [H10|H10].
      * assert (Hnone : registry (clearStaleLocks key now st) !! key = None).
        { rewrite clearStaleLocks_registry, Hreg.
          destruct (Z.ltb_spec 10 (minutes_between now (Entry.timestamp e))); [|lia].
          apply lookup_delete_eq. }
        rewrite (getCreationProgress_absent _ _ _ Hnone). cbn [Progress.inProgress not_in_progress andb].
        rewrite (getCreationProgress_absent _ _ _ Hnone). cbn [Progress.inProgress not_in_progress text sent state].
        repeat split.
        rewrite setCreationLock_registry_true, Hnone, clearStaleLocks_registry, Hreg.
        destruct (Z.ltb_spec 10 (minutes_between now (Entry.timestamp e))); [|lia].
        apply insert_delete_eq.
      * assert (Hsome : registry (clearStaleLocks key now st) !! key = Some e).
        { rewrite clearStaleLocks_registry, Hreg.
          destruct (Z.ltb_spec 10 (minutes_between now (Entry.timestamp e))); [lia|done]. }
        rewrite (getCreationProgress_active _ _ _ _ Hsome Hp) by lia.
        cbn [Progress.inProgress Progress.elapsedMinutes andb].
        destruct (Z.leb_spec FORCE_CLEAR_MINUTES (minutes_between now (Entry.timestamp e)));
          [|lia].
        rewrite getCreationProgress_absent
          by (cbn [registry]; apply lookup_delete_eq).
        cbn [Progress.inProgress not_in_progress text sent state]. repeat split.
        rewrite setCreationLock_registry_true. cbn [registry].
        rewrite lookup_delete_eq. cbn [timestamp_or_now].
        rewrite setCreationLock_registry_false, delete_delete_eq, insert_delete_eq.
        rewrite clearStaleLocks_registry, Hreg.
        destruct (Z.ltb_spec 10 (minutes_between now (Entry.timestamp e))); [lia|done].
    + exfalso. unfold FORCE_CLEAR_MINUTES in *.
      assert (Hsome : registry (clearStaleLocks key now st) !! key = Some e).
      { rewrite clearStaleLocks_registry, Hreg.
        destruct (Z.ltb_spec 10 (minutes_between now (Entry.timestamp e))); [lia|done]. }
      rewrite (getCreationProgress_active _ _ _ _ Hsome Hp) in Hview by lia.
      cbn in Hview. destruct Hview; [discriminate|lia].
  - rewrite (graphMissingBranch_idle config o r f now st Hreg).
    cbn [text sent state]. repeat split.
    rewrite setCreationLock_registry_true, clearStaleLocks_registry, Hreg.
    by rewrite Hreg.
Qed.
End Starts.

(** X11: when the graph is absent and the registry, after the eviction of
    stale locks, does not show a build in progress for less than five whole
    minutes (no record, a record evicted as stale, or one of five minutes or
    more, which the request clears), the request starts a build: it answers
    with the starting text, sends one request to the analysis service for the
    GitHub address of the repository, and stamps a new record with its own
    time, so that the progress read right afterwards is "in progress, 0
    minutes". The registry is taken to hold records in progress only. *)
Theorem graph_missing_starts_build (env : request_env) (config : CodeGraphConfig)
    (repoData : RepoData) (o r f : string) (limit now d : Z) (st : service_state) :
  let key := o +:+ "/" +:+ r in
  let view := (getCreationProgress key (now + d) (clearStaleLocks key (now + d) st)).2 in
  let res := fetchUsageCodeExamples env config repoData f limit now st in
  owner repoData = Some o -> repo repoData = Some r ->
  allWhite o = false -> allWhite r = false ->
  checkGraphExists r (storeListing env) = Resolved d false ->
  registry_ok st ->
  Progress.inProgress view = false \/ 5 <= Progress.elapsedMinutes view ->
  response res
  = andFinally (Resolved d (msgStarting key f)) (disconnect env (clientAfterCheck env))
  /\ triggered res
     = [ mkRequest (serverUrl config +:+ ":" +:+ toString (serverPort config)
                    +:+ "/analyze_repo")
           (authToken config) ("https://github.com/" +:+ o +:+ "/" +:+ r)
           (ignorePatterns config) ]
  /\ registry (finalState res)
     = <[key := Entry.mk true (now + d) "Initializing analysis"]> (registry st)
  /\ (getCreationProgress key (now + d) (finalState res)).2
     = Progress.mk true 0 "5-10 minutes" "Analyzing repository".
Proof.
  intros key view res Ho Hr Hwo Hwr Hcheck Hok Hview.
  destruct (graphMissingBranch_starts config o r f (now + d) st Hok Hview)
    as (Htext & Hsent & Hreg).
  subst res. unfold fetchUsageCodeExamples.
  rewrite Ho, Hr. cbn [isBlank]. rewrite Hwo, Hwr. cbn [orb templateString].
  rewrite Hcheck. cbn zeta. cbn [response triggered finalState].
  rewrite Htext, Hsent, Hreg. repeat split.
  assert (Hlook : registry (state (graphMissingBranch config o r f (now + d) st)) !! key
                  = Some (Entry.mk true (now + d) "Initializing analysis")).
  { rewrite Hreg. apply lookup_insert_eq. }
  assert (Hm : minutes_between (now + d) (now + d) = 0).
  { unfold minutes_between. by rewrite Z.sub_diag. }
  rewrite (getCreationProgress_active _ _ _ _ Hlook eq_refl);
    cbn [Entry.timestamp snd]; rewrite Hm; [done|lia].
Qed.

Lemma graph_missing_starts_build_witness :
  let res := fetchUsageCodeExamples noGraphEnv sampleConfig sampleRepo "parse" 10
               361000 (lockedAt 1000) in
  registry_ok (lockedAt 1000)
  /\ registry (finalState res)
     = <["octo/demo" := Entry.mk true 361010 "Initializing analysis"]>
         (registry (lockedAt 1000)).
Proof.
  assert (Hok : registry_ok (lockedAt 1000)).
  { apply (apply_op_ok (OpSetLock "octo/demo" true 1000) emptyState).
    exact registry_ok_empty. }
  split; [exact Hok|].
  apply (graph_missing_starts_build noGraphEnv sampleConfig sampleRepo
           "octo" "demo" "parse" 10 361000 10 (lockedAt 1000));
    [reflexivity | reflexivity | reflexivity | reflexivity | reflexivity
    | exact Hok | right; vm_compute; discriminate].
Defined.



Section Answer.
Variables (env : request_env) (key f : string) (limit now : Z) (st : service_state).

(** The branch for an existing graph always answers, within the deadline,
    with the advisory text or a payload of the pipeline. *)
Lemma graphExistsBranch_answers :
  exists d text,
    (graphExistsBranch env key f limit now st).2 = Resolved d text
    /\ d <= OPERATION_TIMEOUT
    /\ (text = msgSearchTimeout f
        \/ text = msgNoCallers f
        \/ (exists p, text = msgStillInProgress key p f)
        \/ (exists n examples, text = msgResults f n examples)).
Proof.
  unfold graphExistsBranch.
  pose proof (lookupPipeline_payload env key f limit now st) as Hpayload.
  destruct (lookupPipeline env key f limit now st) as [st' pipeline].
  cbn [snd] in *. unfold raceTimeout, OPERATION_TIMEOUT.
  destruct pipeline as [d payload|d|].
  - destruct (Z.ltb_spec d 8000); cbn [orb orElse].
    + exists d, payload. split; [done|]. split; [lia|].
      destruct (Hpayload d payload eq_refl) as [->|[[p ->]|(dq & cs & b & _ & ->)]];
        eauto 10.
    + destruct (Z.eqb_spec d 8000) as [->|]; cbn [andb orElse];
        [destruct (timerFirst env); cbn [negb orElse]|].
      * exists 8000, (msgSearchTimeout f). eauto with lia.
      * exists 8000, payload. split; [done|]. split; [lia|].
        destruct (Hpayload 8000 payload eq_refl)
          as [->|[[p ->]|(dq & cs & b & _ & ->)]]; eauto 10.
      * exists 8000, (msgSearchTimeout f). eauto with lia.
  - destruct (Z.ltb_spec d 8000); cbn [orb orElse].
    + exists d, (msgSearchTimeout f). eauto with lia.
    + destruct (Z.eqb_spec d 8000) as [->|]; cbn [andb orElse];
        [destruct (timerFirst env); cbn [negb orElse]|];
        exists 8000, (msgSearchTimeout f); eauto with lia.
  - exists 8000, (msgSearchTimeout f). eauto with lia.
Qed.
End Answer.

(** [disconnect] lasts no longer than the closing of the client. *)
Lemma disconnect_in_time (env : request_env) (client : bool) (dd : Z) :
  disconnecting env = Resolved dd () ->
  exists d, disconnect env client = Resolved d () /\ d <= Z.max 0 dd.
Proof.
  intros Hd. destruct client; cbn [disconnect].
  - exists dd. rewrite Hd. split; [done|lia].
  - exists 0. split; [done|lia].
Qed.

(** X13: every request is answered, and in bounded time: when the store
    answers the listing of its graphs (or fails) after [dl] milliseconds and
    the client of the service closes in [dd] milliseconds, the callback is
    fulfilled no later than [dl + 8000] milliseconds after the call and the
    closing of the client, if the service holds one, whatever the query, the
    branch lookup and the fetches do; its text is one of the seven texts of
    the callback, never the text of the outer [catch]. *)
Theorem request_is_answered_in_time (env : request_env) (config : CodeGraphConfig)
    (repoData : RepoData) (f : string) (limit now : Z) (st : service_state)
    (dl dd : Z) :
  0 <= dl ->
  (storeListing env = Rejected dl \/ exists graphs, storeListing env = Resolved dl graphs) ->
  disconnecting env = Resolved dd () ->
  exists t text,
    response (fetchUsageCodeExamples env config repoData f limit now st)
    = Resolved t text
    /\ t <= dl + 8000 + Z.max 0 dd
    /\ (text = msgInvalidRepo
        \/ text = msgStarting (repoKeyOf repoData) f
        \/ (exists p, text = msgInProgress (repoKeyOf repoData) p f)
        \/ text = msgSearchTimeout f
        \/ text = msgNoCallers f
        \/ (exists p, text = msgStillInProgress (repoKeyOf repoData) p f)
        \/ (exists n examples, text = msgResults f n examples)).
Proof.
  intros Hdl Hlist Hd. unfold fetchUsageCodeExamples.
  destruct (isBlank _ || isBlank _).
  - destruct (disconnect_in_time env (serviceClient env) dd Hd) as (d0 & -> & Hd0).
    cbn [response andFinally andThen later].
    eexists _, _. split; [reflexivity|]. split; [lia|]. by left.
  - fold (repoKeyOf repoData). cbn zeta.
    destruct (disconnect_in_time env (clientAfterCheck env) dd Hd) as (d0 & -> & Hd0).
    assert (Hcheck : exists b, checkGraphExists (templateString (repo repoData))
                                 (storeListing env) = Resolved (dl + 0) b
                               \/ checkGraphExists (templateString (repo repoData))
                                    (storeListing env) = Resolved dl b).
    { unfold checkGraphExists. destruct Hlist as [->|[graphs ->]];
        cbn [andThen later orElse]; eauto. }
    destruct Hcheck as [b Hcheck].
    assert (Hcheck' : exists d, checkGraphExists (templateString (repo repoData))
                                  (storeListing env) = Resolved d b /\ d <= dl).
    { destruct Hcheck as [-> | ->]; eexists; (split; [reflexivity|lia]). }
    clear Hcheck. destruct Hcheck' as (d & -> & Hdle).
    destruct b.
    + destruct (graphExistsBranch_answers env (repoKeyOf repoData) f limit (now + d) st)
        as (d' & text & Hanswer & Hd' & Htext).
      unfold OPERATION_TIMEOUT in Hd'.
      destruct (graphExistsBranch env (repoKeyOf repoData) f limit (now + d) st)
        as [st' answer].
      cbn [snd] in Hanswer. subst answer.
      cbn [response andFinally andThen later].
      eexists _, text. split; [reflexivity|]. split; [lia|].
      destruct Htext as [->|[->|[[p ->]|(n & ex & ->)]]]; eauto 12.
    + cbn [response andFinally andThen later].
      eexists _, _. split; [reflexivity|]. split; [lia|].
      unfold graphMissingBranch.
      destruct (getCreationProgress _ _ (clearStaleLocks _ _ st)) as [st2 progress].
      match goal with
      | |- context [getCreationProgress ?k ?t ?s] =>
          destruct (getCreationProgress k t s) as [st4 finalProgress]
      end.
      destruct (Progress.inProgress finalProgress); cbn [text]; eauto 10.
Qed.

Lemma request_is_answered_in_time_witness :
  exists t text,
    response (fetchUsageCodeExamples slowStoreEnv sampleConfig sampleRepo "parse" 10 0
                emptyState) = Resolved t text
    /\ t <= 10 + 8000 + 1.
Proof.
  destruct (request_is_answered_in_time slowStoreEnv sampleConfig sampleRepo "parse"
              10 0 emptyState 10 1) as (t & text & Hres & Ht & _);
    [lia | right; by exists ["demo"] | reflexivity |].
  by exists t, text.
Defined.

(** ** The callback: what it refuses and what it leaves alone *)

Lemma allWhite_asciiWhite (s : string) :
  allChars asciiWhite s = true -> allWhite s = true.
Proof.
  induction s as [|c s IH]; [done|]. cbn [allChars allWhite].
  intros [Hc Hs]%andb_prop. unfold asciiWhite in Hc. rewrite Hc. by apply IH.
Qed.

Lemma white3_high (a b c : nat) :
  white3 a b c = true -> (128 <= a /\ 128 <= b /\ 128 <= c)%nat.
Proof.
  unfold white3.
  repeat first [rewrite orb_true_iff | rewrite andb_true_iff].
  rewrite !Nat.eqb_eq, !Nat.leb_le. lia.
Qed.

Lemma asciiVisible_low (c : ascii) :
  asciiVisible c = true -> (nat_of_ascii c < 128)%nat /\ asciiWhite c = false.
Proof.
  unfold asciiVisible. intros [Hn Hw]%andb_prop.
  split; [by apply Nat.ltb_lt|by apply negb_true_iff].
Qed.

Lemma someChar_high (c : ascii) (s : string) :
  (128 <= nat_of_ascii c)%nat ->
  someChar asciiVisible (String c s) = someChar asciiVisible s.
Proof.
  intros Hc. cbn [someChar]. unfold asciiVisible at 1.
  by destruct (Nat.ltb_spec (nat_of_ascii c) 128); [lia|].
Qed.

(** [trim] removes white space only: a text with a character of the ASCII
    range that is no white space does not trim to the empty text. *)
Lemma allWhite_asciiVisible (s : string) :
  someChar asciiVisible s = true -> allWhite s = false.
Proof.
  assert (Hlen : forall n s, (String.length s <= n)%nat ->
                             someChar asciiVisible s = true -> allWhite s = false).
  { clear s. induction n as [|n IH]; intros s Hn Hsome.
    { destruct s; [discriminate | simpl in Hn; lia]. }
    destruct s as [|c s1]; [discriminate|]. cbn [String.length] in Hn.
    cbn [allWhite].
    destruct ((9 <=? nat_of_ascii c) && (nat_of_ascii c <=? 13)
              || (nat_of_ascii c =? 32))%nat eqn:Hw.
    - apply IH; [lia|]. cbn [someChar] in Hsome.
      apply orb_prop in Hsome as [Hc|Hs]; [|done].
      apply asciiVisible_low in Hc as [_ Hc]. unfold asciiWhite in Hc. congruence.
    - destruct s1 as [|c1 s2]; [done|]. cbn [String.length] in Hn.
      destruct ((nat_of_ascii c =? 194) && (nat_of_ascii c1 =? 160))%nat eqn:Hnb.
      + apply andb_prop in Hnb as [Ha%Nat.eqb_eq Hb%Nat.eqb_eq].
        apply IH; [lia|].
        rewrite !someChar_high in Hsome by lia. exact Hsome.
      + destruct s2 as [|c2 s3]; [done|]. cbn [String.length] in Hn.
        destruct (white3 (nat_of_ascii c) (nat_of_ascii c1) (nat_of_ascii c2)) eqn:H3;
          [|done].
        apply white3_high in H3 as (Ha & Hb & Hc).
        apply IH; [lia|].
        rewrite !someChar_high in Hsome by lia. exact Hsome. }
  apply (Hlen (String.length s)). lia.
Qed.

(** X21: a request whose owner or repository name is absent, or made of
    white space only, is refused before anything else: the answer is the
    validation text whatever the store, the query and the fetches would do,
    the registry and the legacy locks are untouched and no build request is
    sent. The answer comes at once when the service holds no client, since
    the check of the store was never reached and [disconnect] has nothing to
    close; it waits for the closing of a client that an earlier use left
    open. A name with a character of the ASCII range that is no white space
    is not blank. *)
Theorem blank_identity_is_refused (env : request_env) (config : CodeGraphConfig)
    (repoData : RepoData) (f : string) (limit now : Z) (st : service_state) :
  let res := fetchUsageCodeExamples env config repoData f limit now st in
  (forall s, someChar asciiVisible s = true -> isBlank (Some s) = false)
  /\ (owner repoData = None \/ repo repoData = None
      \/ (exists s, owner repoData = Some s /\ allChars asciiWhite s = true)
      \/ (exists s, repo repoData = Some s /\ allChars asciiWhite s = true) ->
      finalState res = st
      /\ triggered res = []
      /\ (serviceClient env = false -> response res = Resolved 0 msgInvalidRepo)
      /\ (forall dd, serviceClient env = true -> disconnecting env = Resolved dd () ->
            response res = Resolved dd msgInvalidRepo)
      /\ (serviceClient env = true -> disconnecting env = Pending ->
          response res = Pending)).
Proof.
  intros res. split; [intros s; apply allWhite_asciiVisible|].
  intros Hblank.
  assert (Hb : isBlank (owner repoData) || isBlank (repo repoData) = true).
  { destruct Hblank as [-> | [-> | [(s & -> & Hs) | (s & -> & Hs)]]]; cbn [isBlank].
    - done.
    - apply orb_true_r.
    - by rewrite allWhite_asciiWhite.
    - rewrite (allWhite_asciiWhite s Hs). apply orb_true_r. }
  subst res. unfold fetchUsageCodeExamples. rewrite Hb.
  cbn [finalState triggered response]. split; [done|]. split; [done|].
  split; [|split].
  - by intros ->.
  - intros dd -> Hd. cbn [disconnect andFinally]. rewrite Hd.
    cbn [andThen later]. f_equal. lia.
  - intros -> Hd. cbn [disconnect andFinally]. by rewrite Hd.
Qed.

Lemma blank_identity_is_refused_witness :
  let res := fetchUsageCodeExamples silentEnv sampleConfig
               (mkRepo (Some "   ") (Some "demo")) "parse" 10 0 (lockedAt 1000) in
  response res = Resolved 0 msgInvalidRepo
  /\ finalState res = lockedAt 1000
  /\ triggered res = [].
Proof.
  destruct (blank_identity_is_refused silentEnv sampleConfig
              (mkRepo (Some "   ") (Some "demo")) "parse" 10 0 (lockedAt 1000))
    as (_ & H).
  destruct H as (Hstate & Hsent & Hquick & _).
  { right. right. left. by exists "   ". }
  split; [by apply Hquick|]. split; [exact Hstate | exact Hsent].
Defined.

(** X22: a request that finds the graph never starts a build and never
    creates a record: it sends nothing, and leaves the registry as it was or
    without the record of its key (the stale record that reading the progress
    evicts); the legacy locks are untouched. *)
Theorem graph_ready_starts_nothing (env : request_env) (config : CodeGraphConfig)
    (repoData : RepoData) (f : string) (limit now d : Z) (st : service_state) :
  let res := fetchUsageCodeExamples env config repoData f limit now st in
  isBlank (owner repoData) = false -> isBlank (repo repoData) = false ->
  checkGraphExists (templateString (repo repoData)) (storeListing env) = Resolved d true ->
  triggered res = []
  /\ (registry (finalState res) = registry st
      \/ registry (finalState res) = delete (repoKeyOf repoData) (registry st))
  /\ graphCreationLocks (finalState res) = graphCreationLocks st.
Proof.
  intros res Ho Hr Hcheck. subst res. unfold fetchUsageCodeExamples.
  rewrite Ho, Hr, Hcheck. cbn [orb]. fold (repoKeyOf repoData).
  unfold graphExistsBranch, lookupPipeline.
  destruct (connection env) as [dc []| |]; cbn [triggered finalState]; eauto.
  unfold graphOperation.
  destruct (functionInfo env f limit) as [dq [|c cs]| |]; cbn [triggered finalState]; eauto.
  unfold getCreationProgress.
  destruct (registry st !! repoKeyOf repoData) as [e|]; cbn [triggered finalState]; eauto.
  destruct (Entry.inProgress e); cbn [triggered finalState]; eauto.
  destruct (20 <? _); cbn [triggered finalState registry graphCreationLocks]; eauto.
Qed.

Lemma graph_ready_starts_nothing_witness :
  triggered (fetchUsageCodeExamples noCallersEnv sampleConfig sampleRepo "parse" 10
               2000 (lockedAt 1000)) = [].
Proof.
  apply (graph_ready_starts_nothing noCallersEnv sampleConfig sampleRepo "parse" 10
           2000 10 (lockedAt 1000)); reflexivity.
Defined.

(** X23: the view of a record in progress follows its age: below ten
    minutes (also for a timestamp in the future) the phase is "Analyzing
    repository" with "5-10 minutes" remaining, from ten minutes to below
    twenty-one "Completing analysis" with "Should complete soon"; the elapsed
    minutes are the whole minutes of the age, and the reading changes
    nothing. *)
Theorem getCreationProgress_phases (key : string) (now : Z) (st : service_state)
    (e : Entry.t) :
  registry st !! key = Some e -> Entry.inProgress e = true ->
  (now - Entry.timestamp e < 10 * 60 * 1000 ->
   getCreationProgress key now st
   = (st, Progress.mk true ((now - Entry.timestamp e) / 60000)
            "5-10 minutes" "Analyzing repository"))
  /\ (10 * 60 * 1000 <= now - Entry.timestamp e < 21 * 60 * 1000 ->
      getCreationProgress key now st
      = (st, Progress.mk true ((now - Entry.timestamp e) / 60000)
               "Should complete soon" "Completing analysis")
      /\ 10 <= (now - Entry.timestamp e) / 60000 <= 20).
Proof.
  intros Hreg Hp.
  pose proof (minutes_between_lt now (Entry.timestamp e) 10) as H10.
  pose proof (minutes_between_lt now (Entry.timestamp e) 21) as H21.
  split.
  - intros Hage. rewrite (getCreationProgress_active _ _ _ _ Hreg Hp) by lia.
    destruct (Z.ltb_spec (minutes_between now (Entry.timestamp e)) 10); [done|lia].
  - intros Hage. rewrite (getCreationProgress_active _ _ _ _ Hreg Hp) by lia.
    destruct (Z.ltb_spec (minutes_between now (Entry.timestamp e)) 10); [lia|].
    split; [done|]. unfold minutes_between in *. change (1000 * 60) with 60000 in *. lia.
Qed.

Lemma getCreationProgress_phases_witness :
  getCreationProgress "octo/demo" (1000 + 12 * 60 * 1000) (lockedAt 1000)
  = (lockedAt 1000, Progress.mk true 12 "Should complete soon" "Completing analysis").
Proof.
  apply (getCreationProgress_phases "octo/demo" (1000 + 12 * 60 * 1000) (lockedAt 1000)
           (Entry.mk true 1000 "Initializing analysis")); [reflexivity | reflexivity |].
  simpl. lia.
Defined.

(** ** Splitting, joining and the relative path *)

(** X14: splitting a text at a separator and joining the pieces with it
    gives the text back; the split is never empty and no piece contains the
    separator. *)
Theorem split_join_round_trip (c : ascii) (s : string) :
  join (String c "") (split_on c s) = s
  /\ split_on c s <> []
  /\ Forall (fun seg => forall a b, seg <> a +:+ String c b) (split_on c s).
Proof.
  split; [apply join_split|]. split; [apply split_on_nonempty | apply split_on_segments].
Qed.

Lemma matchesPattern_four_segments (path : string) :
  matchesPattern path -> (4 <= length (split_on "/" path))%nat.
Proof.
  intros (before & segment & rest & -> & _).
  change ("/repositories/" +:+ segment +:+ "/" +:+ rest)
    with (String "/" ("repositories" +:+ String "/" (segment +:+ String "/" rest))).
  rewrite !length_split_on_sep.
  assert (forall s, (1 <= length (split_on "/" s))%nat) as Hone.
  { intros s. pose proof (split_on_nonempty "/" s). destruct (split_on "/" s); [done|simpl; lia]. }
  pose proof (Hone before). pose proof (Hone "repositories").
  pose proof (Hone segment). pose proof (Hone rest). lia.
Qed.

(** X15: the relative path is always an end of the store path: the path is
    some text followed by its relative path. *)
Theorem relativePath_is_suffix (path : string) :
  exists before, path = before +:+ relativePath path.
Proof.
  unfold relativePath. destruct (pathMatch path) as [rest|] eqn:Hm.
  - destruct (pathMatch_sound _ _ Hm) as (before & segment & -> & _).
    exists (before +:+ "/repositories/" +:+ segment +:+ "/").
    by rewrite !append_assoc.
  - rewrite slice_last_two. unfold lastTwo.
    pose proof (join_split "/" path) as Hjoin.
    pose proof (split_on_nonempty "/" path) as Hne.
    set (xs := split_on "/" path) in *.
    destruct (decide (length xs <= 2)%nat) as [Hshort|Hlong].
    + exists "". replace (length xs - 2)%nat with 0%nat by lia.
      by rewrite drop_0, append_nil_l.
    + exists (join "/" (take (length xs - 2) xs) +:+ "/").
      rewrite append_assoc. change ("/" +:+ ?s) with (String "/" s).
      rewrite <- join_app.
      * by rewrite take_drop.
      * intros H%(f_equal length). rewrite length_take in H. simpl in H. lia.
      * intros H%(f_equal length). rewrite length_drop in H. simpl in H. lia.
Qed.

(** X16: a path with fewer than three slashes is never read as a store
    path: its relative path is its last two segments, and a path with at most
    one slash is its own relative path. *)
Theorem relativePath_short_path (path : string) :
  ((length (split_on "/" path) <= 3)%nat ->
   relativePath path = join "/" (lastTwo (split_on "/" path)))
  /\ ((length (split_on "/" path) <= 2)%nat -> relativePath path = path).
Proof.
  assert (Hfall : (length (split_on "/" path) <= 3)%nat ->
                  relativePath path = join "/" (lastTwo (split_on "/" path))).
  { intros Hlen. unfold relativePath.
    destruct (pathMatch path) as [rest|] eqn:Hm; [|by rewrite slice_last_two].
    destruct (pathMatch_sound _ _ Hm) as (b & s & Hshape).
    assert (matchesPattern path) as H4%matchesPattern_four_segments by (by exists b, s, rest).
    lia. }
  split; [exact Hfall|].
  intros Hlen. rewrite Hfall by lia. unfold lastTwo.
  replace (length (split_on "/" path) - 2)%nat with 0%nat by lia.
  rewrite drop_0. apply join_split.
Qed.

Lemma relativePath_short_path_witness :
  relativePath "util/io.ts" = "util/io.ts".
Proof.
  apply (relativePath_short_path "util/io.ts"). simpl. lia.
Defined.

(** ** The rendered lines *)

Lemma renderLine_marked (line startLine : Z) (j : nat) (codeLine : string) :
  (exists tail, renderLine line startLine j codeLine = ">>>" +:+ tail)
  <-> startLine + Z.of_nat j + 1 = line.
Proof.
  unfold renderLine. destruct (Z.eqb_spec (startLine + Z.of_nat j + 1) line) as [Heq|Hne].
  - split; [done|]. intros _. eexists. reflexivity.
  - split; [|done]. intros [tail Htail]. discriminate Htail.
Qed.

(** X17: for a 1-based target the snippet has at most 11 lines; the line at
    position [j] carries the marker exactly when it is the target line, so
    that at most one line is marked: the target line when it is a line of the
    file, none when the target is past the end. *)
Theorem snippet_lines_marked (lines : list string) (target : Z) :
  1 <= target ->
  renderLines lines target = join LF (snippetLines lines target)
  /\ (length (snippetLines lines target) <= 11)%nat
  /\ (forall j l, snippetLines lines target !! j = Some l ->
        ((exists tail, l = ">>>" +:+ tail)
         <-> Z.max 0 (target - 6) + Z.of_nat j + 1 = target))
  /\ (target <= Z.of_nat (length lines) ->
      exists codeLine,
        lines !! Z.to_nat (target - 1) = Some codeLine
        /\ snippetLines lines target !! Z.to_nat (target - 1 - Z.max 0 (target - 6))
           = Some (">>> " +:+ padStart 3 (toString target) +:+ ": " +:+ codeLine))
  /\ (Z.of_nat (length lines) < target ->
      forall l, l ∈ snippetLines lines target -> ~ exists tail, l = ">>>" +:+ tail).
Proof.
  intros Ht. split; [reflexivity|].
  unfold snippetLines, CONTEXT_RADIUS.
  replace (target - 1 - 5) with (target - 6) by lia.
  set (lo := Z.max 0 (target - 6)).
  set (hi := Z.min (Z.of_nat (length lines) - 1) (target - 1 + 5)).
  rewrite slice_within by lia.
  assert (Hmark : forall j l,
             imap (renderLine target lo)
               (take (Z.to_nat (hi + 1 - lo)) (drop (Z.to_nat lo) lines)) !! j = Some l ->
             ((exists tail, l = ">>>" +:+ tail) <-> lo + Z.of_nat j + 1 = target)).
  { intros j l. rewrite list_lookup_imap.
    destruct (take _ _ !! j) as [codeLine|]; [|discriminate].
    intros [= <-]. apply renderLine_marked. }
  split; [|split; [exact Hmark|split]].
  - rewrite length_imap, length_take. lia.
  - intros Hin.
    destruct (lookup_lt_is_Some_2 lines (Z.to_nat (target - 1))) as [codeLine Hline];
      [lia|].
    exists codeLine. split; [done|].
    rewrite list_lookup_imap, lookup_take_lt by lia. rewrite lookup_drop.
    replace (Z.to_nat lo + Z.to_nat (target - 1 - lo))%nat with (Z.to_nat (target - 1))
      by lia.
    rewrite Hline. cbn [fmap option_fmap option_map]. unfold renderLine.
    replace (lo + Z.of_nat (Z.to_nat (target - 1 - lo)) + 1) with target by lia.
    by rewrite Z.eqb_refl.
  - intros Hout l [j Hj]%list_elem_of_lookup Hl.
    apply (Hmark j l Hj) in Hl.
    apply lookup_lt_Some in Hj. rewrite length_imap, length_take, length_drop in Hj.
    lia.
Qed.

Lemma snippet_lines_marked_witness :
  1 <= 2 /\ (length (snippetLines ["import a"; "parse(a)"; "done"] 2) <= 11)%nat.
Proof.
  split; [lia|].
  apply (snippet_lines_marked ["import a"; "parse(a)"; "done"] 2). lia.
Defined.

Lemma length_spaces (n : nat) : String.length (spaces n) = n.
Proof. induction n as [|n IH]; simpl; [done|by rewrite IH]. Qed.

Lemma toString_short (n : Z) :
  0 <= n < 1000 -> (String.length (toString n) <= 3)%nat.
Proof.
  intros Hn.
  assert (Hall : forallb (fun i => (String.length (toString i) <=? 3)%nat) (seqZ 0 1000)
                 = true) by (vm_compute; reflexivity).
  rewrite forallb_forall in Hall.
  apply Nat.leb_le, Hall, list_elem_of_In, elem_of_seqZ. lia.
Qed.

(** X18: the text of a line starts after a prefix of the same width on
    every line numbered below 1000: three characters of marker, a space, the
    number padded to three columns, a colon and a space; from line 1000 on
    the number is wider and the prefix with it. *)
Theorem rendered_line_width (line startLine : Z) (j : nat) (codeLine : string) :
  (9 + String.length codeLine <= String.length (renderLine line startLine j codeLine))%nat
  /\ (0 <= startLine + Z.of_nat j + 1 < 1000 ->
      String.length (renderLine line startLine j codeLine)
      = (9 + String.length codeLine)%nat).
Proof.
  unfold renderLine, padStart.
  set (number := toString (startLine + Z.of_nat j + 1)).
  assert (Hlen : forall marker, String.length marker = 3%nat ->
            String.length (marker +:+ " " +:+ (spaces (3 - String.length number) +:+ number)
                           +:+ ": " +:+ codeLine)
            = (6 + (3 - String.length number) + String.length number
               + String.length codeLine)%nat).
  { intros marker Hm. rewrite !length_append, length_spaces, Hm. simpl. lia. }
  assert (Hmarker : String.length (if startLine + Z.of_nat j + 1 =? line
                                   then ">>>" else "   ") = 3%nat)
    by (by destruct (_ =? _)).
  rewrite (Hlen _ Hmarker). split; [lia|].
  intros Hn. pose proof (toString_short _ Hn) as Hshort. fold number in Hshort. lia.
Qed.

Lemma rendered_line_width_witness :
  String.length (renderLine 2 0 1 "parse(a)") = (9 + String.length "parse(a)")%nat.
Proof.
  apply (rendered_line_width 2 0 1 "parse(a)"). simpl. lia.
Defined.

(** ** Numbers as text, and the configuration *)

Section Decimal.
Implicit Types (n d acc : Z) (fuel : nat) (s : string).

Lemma digitValue_digit d :
  0 <= d < 10 -> digitValue 10 (digit_char d) = Some d.
Proof.
  intros Hd. unfold digitValue, digit_char.
  rewrite nat_ascii_embedding by lia.
  destruct (Z.leb_spec 48 (Z.of_nat (48 + Z.to_nat d))); [|lia].
  destruct (Z.leb_spec (Z.of_nat (48 + Z.to_nat d)) 57); [|lia].
  cbn [andb]. destruct (Z.ltb_spec (Z.of_nat (48 + Z.to_nat d) - 48) 10); [|lia].
  f_equal. lia.
Qed.

(** The digits written in front of [s] read back as the number. *)
Lemma digitsFrom_digits_fuel fuel n s :
  0 <= n < 10 ^ Z.of_nat fuel ->
  exists k, 0 <= k /\
    forall acc, digitsFrom 10 acc (digits_fuel fuel n s)
                = digitsFrom 10 (acc * 10 ^ k + n) s.
Proof.
  revert n s. induction fuel as [|fuel IH]; intros n s Hn.
  - exists 0. split; [done|]. intros acc. cbn [digits_fuel].
    change (10 ^ Z.of_nat 0) with 1 in Hn. f_equal. lia.
  - cbn [digits_fuel].
    assert (Hmod : 0 <= n mod 10 < 10) by (apply Z.mod_pos_bound; lia).
    destruct (Z.ltb_spec n 10).
    + exists 1. split; [lia|]. intros acc. cbn [digitsFrom].
      rewrite digitValue_digit by done. f_equal. rewrite Z.mod_small by lia. lia.
    + destruct (IH (n / 10) (String (digit_char (n mod 10)) s)) as (k & Hk & Hread).
      { split; [apply Z.div_pos; lia|].
        apply Z.div_lt_upper_bound; [lia|].
        rewrite Nat2Z.inj_succ, Z.pow_succ_r in Hn by lia. lia. }
      exists (k + 1). split; [lia|]. intros acc. rewrite Hread.
      cbn [digitsFrom]. rewrite digitValue_digit by done. f_equal.
      rewrite Z.pow_add_r by lia. pose proof (Z.div_mod n 10). lia.
Qed.

Lemma digits_fuel_S fuel n s :
  digits_fuel (S fuel) n s
  = if n <? 10 then String (digit_char (n mod 10)) s
    else digits_fuel fuel (n / 10) (String (digit_char (n mod 10)) s).
Proof. reflexivity. Qed.

Lemma digits_fuel_head fuel n s :
  0 <= n ->
  exists d rest, 0 <= d < 10
                 /\ digits_fuel (S fuel) n s = String (digit_char d) rest
                 /\ (rest = s \/ exists d' rest', 0 <= d' < 10
                                                 /\ rest = String (digit_char d') rest').
Proof.
  revert n s. induction fuel as [|fuel IH]; intros n s Hn.
  - cbn [digits_fuel]. exists (n mod 10), s.
    split; [apply Z.mod_pos_bound; lia|]. split; [by destruct (n <? 10)|by left].
  - assert (Hmod : 0 <= n mod 10 < 10) by (apply Z.mod_pos_bound; lia).
    rewrite digits_fuel_S. destruct (n <? 10).
    + exists (n mod 10), s. split; [done|]. split; [done|by left].
    + destruct (IH (n / 10) (String (digit_char (n mod 10)) s)) as (d & rest & Hd & -> & Hrest).
      { apply Z.div_pos; lia. }
      exists d, rest. split; [done|]. split; [done|]. right.
      destruct Hrest as [->|Hrest]; [|done]. by exists (n mod 10), s.
Qed.

Lemma enough_fuel n : 0 < n -> n < 10 ^ Z.of_nat (Z.to_nat (Z.log2 n) + 1).
Proof.
  intros Hn. pose proof (Z.log2_nonneg n).
  replace (Z.of_nat (Z.to_nat (Z.log2 n) + 1)) with (Z.succ (Z.log2 n)) by lia.
  pose proof (Z.log2_spec n Hn) as [_ Hlt].
  eapply Z.lt_le_trans; [exact Hlt|].
  apply Z.pow_le_mono_l. lia.
Qed.
End Decimal.

Lemma skipWhite_digit (d : Z) (rest : string) :
  0 <= d < 10 -> skipWhite (String (digit_char d) rest) = String (digit_char d) rest.
Proof.
  intros Hd.
  assert (Hcases : d = 0 \/ d = 1 \/ d = 2 \/ d = 3 \/ d = 4 \/ d = 5 \/ d = 6 \/ d = 7
                   \/ d = 8 \/ d = 9) by lia.
  destruct rest as [|c1 [|c2 rest]];
    repeat (destruct Hcases as [->|Hcases]; [reflexivity|]); by subst.
Qed.

Lemma parseInt_digits (n : Z) (fuel : nat) :
  0 <= n < 10 ^ Z.of_nat (S fuel) ->
  parseInt (digits_fuel (S fuel) n "") = toDouble n
  /\ parseInt ("-" +:+ digits_fuel (S fuel) n "") = toDouble (- n).
Proof.
  intros Hn.
  destruct (digitsFrom_digits_fuel (S fuel) n "" Hn) as (k & Hk & Hread).
  specialize (Hread 0). cbn [digitsFrom] in Hread. rewrite Z.mul_0_l, Z.add_0_l in Hread.
  destruct (digits_fuel_head fuel n "") as (d & rest & Hd & Hhead & Hrest); [lia|].
  rewrite Hhead in *.
  assert (Hc : digit_char d <> "-"%char /\ digit_char d <> "+"%char).
  { assert (Hcases : d = 0 \/ d = 1 \/ d = 2 \/ d = 3 \/ d = 4 \/ d = 5 \/ d = 6 \/ d = 7
                     \/ d = 8 \/ d = 9) by lia.
    repeat (destruct Hcases as [->|Hcases]; [split; discriminate|]). subst. split; discriminate. }
  assert (Hradix : match String (digit_char d) rest with
                   | String "0" (String "x" r) => (16, r)
                   | String "0" (String "X" r) => (16, r)
                   | _ => (10, String (digit_char d) rest)
                   end = (10, String (digit_char d) rest)).
  { destruct Hrest as [->|(d' & rest' & Hd' & ->)].
    - by destruct (digit_char d) as [[] [] [] [] [] [] [] []].
    - assert (Hx : digit_char d' <> "x"%char /\ digit_char d' <> "X"%char).
      { assert (Hcases : d' = 0 \/ d' = 1 \/ d' = 2 \/ d' = 3 \/ d' = 4 \/ d' = 5
                         \/ d' = 6 \/ d' = 7 \/ d' = 8 \/ d' = 9) by lia.
        repeat (destruct Hcases as [->|Hcases]; [split; discriminate|]).
        subst. split; discriminate. }
      destruct Hx as [Hx1 Hx2].
      destruct (digit_char d) as [[] [] [] [] [] [] [] []]; try reflexivity;
        destruct (digit_char d') as [[] [] [] [] [] [] [] []]; try reflexivity;
        congruence. }
  split.
  - unfold parseInt. rewrite skipWhite_digit by done.
    assert (Hsign : match String (digit_char d) rest with
                    | String "-" r => (-1, r)
                    | String "+" r => (1, r)
                    | _ => (1, String (digit_char d) rest)
                    end = (1, String (digit_char d) rest)).
    { destruct Hc as [Hm Hp].
      destruct (digit_char d) as [[] [] [] [] [] [] [] []]; try reflexivity; congruence. }
    rewrite Hsign, Hradix. rewrite digitValue_digit by done. rewrite Hread. f_equal; lia.
  - unfold parseInt. rewrite append_cons, append_nil_l.
    assert (Hminus : skipWhite (String "-" (String (digit_char d) rest))
                     = String "-" (String (digit_char d) rest))
      by (by destruct rest as [|c2 r]).
    rewrite Hminus, Hradix. rewrite digitValue_digit by done. rewrite Hread. f_equal; lia.
Qed.

(** The text of an integer reads back as the double nearest to it. *)
Lemma parseInt_reads_toString (n : Z) : parseInt (toString n) = toDouble n.
Proof.
  destruct n as [|p|p].
  - reflexivity.
  - unfold toString.
    replace (Z.to_nat (Z.log2 (Z.pos p)) + 1)%nat with (S (Z.to_nat (Z.log2 (Z.pos p))))
      by lia.
    apply parseInt_digits. split; [lia|].
    replace (S (Z.to_nat (Z.log2 (Z.pos p)))) with (Z.to_nat (Z.log2 (Z.pos p)) + 1)%nat
      by lia.
    apply enough_fuel. lia.
  - unfold toString.
    replace (Z.to_nat (Z.log2 (- Z.neg p)) + 1)%nat
      with (S (Z.to_nat (Z.log2 (- Z.neg p)))) by lia.
    change (Z.neg p) with (- (- Z.neg p)) at 3.
    apply parseInt_digits. split; [lia|].
    replace (S (Z.to_nat (Z.log2 (- Z.neg p))))
      with (Z.to_nat (Z.log2 (- Z.neg p)) + 1)%nat by lia.
    apply enough_fuel. lia.
Qed.

Lemma toString_nonempty (n : Z) : toString n <> "".
Proof.
  destruct n as [|p|p]; [done| |done]. unfold toString.
  replace (Z.to_nat (Z.log2 (Z.pos p)) + 1)%nat with (S (Z.to_nat (Z.log2 (Z.pos p))))
    by lia.
  destruct (digits_fuel_head (Z.to_nat (Z.log2 (Z.pos p))) (Z.pos p) "")
    as (d & rest & _ & -> & _); [lia|done].
Qed.

Lemma toDouble_safe (n : Z) : Z.abs n < 2 ^ 53 -> toDouble n = Num n.
Proof.
  intros Hn. unfold toDouble. by destruct (Z.ltb_spec (Z.abs n) (2 ^ 53)); [|lia].
Qed.

(** X19: a safe integer written in decimal reads back as itself: [parseInt]
    of the text of an integer below [2 ^ 53] in absolute value is that
    integer, with or without white space in front, and that text is never
    empty. Beyond the safe integers the number read is the nearest double:
    [2 ^ 53 + 1] reads back as [2 ^ 53]. *)
Theorem parseInt_toString (n : Z) :
  (Z.abs n < 2 ^ 53 ->
   parseInt (toString n) = Num n
   /\ parseInt (" " +:+ toString n) = Num n
   /\ toString n <> "")
  /\ parseInt "9007199254740993" = Num 9007199254740992.
Proof.
  split; [|vm_compute; reflexivity].
  intros Hn. rewrite <- (toDouble_safe n Hn).
  split; [apply parseInt_reads_toString|]. split.
  - rewrite <- (parseInt_reads_toString n). unfold parseInt.
    rewrite append_cons, append_nil_l.
    by change (skipWhite (String " " (toString n))) with (skipWhite (toString n)).
  - apply toString_nonempty.
Qed.

Lemma parseInt_toString_witness :
  Z.abs 6100 < 2 ^ 53 /\ parseInt "6100" = Num 6100.
Proof.
  split; [vm_compute; reflexivity|].
  apply (parseInt_toString 6100). vm_compute. reflexivity.
Defined.

Lemma orDefault_nonempty (s fallback : string) :
  s <> "" -> orDefault (Some s) fallback = s.
Proof. by destruct s. Qed.

(** X20: the configuration read from the environment: a variable that is
    unset or empty gives its default; a port written in decimal, a safe
    integer, is the port of the configuration and appears as written in the
    address of the analysis service, while a larger one is rounded to a
    double; a port that [parseInt] cannot read is not replaced by the
    default: the address then carries [NaN]; and the ignore patterns are the
    pieces of the variable between commas, which joined by commas give the
    variable back. *)
Theorem getCodeGraphConfig_reads (env : process_env) :
  (forall name fallback, env name = None \/ env name = Some "" ->
     orDefault (env name) fallback = fallback)
  /\ (env "CODE_GRAPH_SERVER_PORT" = None \/ env "CODE_GRAPH_SERVER_PORT" = Some "" ->
      envServerPort (getCodeGraphConfig env) = Num 5000)
  /\ (forall port, Z.abs port < 2 ^ 53 ->
        env "CODE_GRAPH_SERVER_PORT" = Some (toString port) ->
        envServerPort (getCodeGraphConfig env) = Num port
        /\ apiUrlOf (getCodeGraphConfig env)
           = envServerUrl (getCodeGraphConfig env) +:+ ":" +:+ toString port
             +:+ "/analyze_repo")
  /\ (env "CODE_GRAPH_SERVER_PORT" = Some "9007199254740993" ->
      envServerPort (getCodeGraphConfig env) = Num 9007199254740992)
  /\ (forall text, env "CODE_GRAPH_SERVER_PORT" = Some text -> text <> "" ->
        parseInt text = NaN ->
        apiUrlOf (getCodeGraphConfig env)
        = envServerUrl (getCodeGraphConfig env) +:+ ":NaN/analyze_repo")
  /\ (env "CODE_GRAPH_IGNORE_PATTERNS" = None \/ env "CODE_GRAPH_IGNORE_PATTERNS" = Some "" ->
      envIgnorePatterns (getCodeGraphConfig env) = DEFAULT_IGNORE)
  /\ (forall text, env "CODE_GRAPH_IGNORE_PATTERNS" = Some text -> text <> "" ->
        envIgnorePatterns (getCodeGraphConfig env) = split_on "," text
        /\ join "," (envIgnorePatterns (getCodeGraphConfig env)) = text).
Proof.
  split; [|split; [|split; [|split; [|split; [|split]]]]].
  - by intros name fallback [-> | ->].
  - unfold getCodeGraphConfig. cbn [envServerPort]. by intros [-> | ->].
  - intros port Hsafe Hport. unfold apiUrlOf, getCodeGraphConfig.
    cbn [envServerPort envServerUrl]. rewrite Hport.
    rewrite orDefault_nonempty by apply toString_nonempty.
    by rewrite parseInt_reads_toString, toDouble_safe.
  - intros Hport. unfold getCodeGraphConfig. cbn [envServerPort]. rewrite Hport.
    vm_compute. reflexivity.
  - intros text Hport Hne Hnan. unfold apiUrlOf, getCodeGraphConfig.
    cbn [envServerPort envServerUrl]. rewrite Hport.
    rewrite orDefault_nonempty by done. by rewrite Hnan.
  - unfold getCodeGraphConfig. cbn [envIgnorePatterns]. by intros [-> | ->].
  - intros text Htext Hne. unfold getCodeGraphConfig. cbn [envIgnorePatterns].
    rewrite Htext. destruct text as [|c s]; [done|]. split; [done|]. apply join_split.
Qed.

Lemma getCodeGraphConfig_reads_witness :
  apiUrlOf (getCodeGraphConfig
              (fun name => if String.eqb name "CODE_GRAPH_SERVER_PORT"
                           then Some (toString 6100) else None))
  = "http://127.0.0.1" +:+ ":" +:+ toString 6100 +:+ "/analyze_repo".
Proof.
  apply (getCodeGraphConfig_reads
           (fun name => if String.eqb name "CODE_GRAPH_SERVER_PORT"
                        then Some (toString 6100) else None));
    [vm_compute; reflexivity | reflexivity].
Defined.
